(** * Gallery Explorer (src/src/App.tsx): fetch, aggregate, bucket by decade

    The source file holds two variants of the same component:
    - the multi-page variant (lines 1-214): ten pages fetched through
      [Promise.all], merged, deduplicated by [id], filtered, and bucketed
      with a minimum bucket size of 20;
    - the single-page variant (lines 215-370): one page fetched, filtered,
      and bucketed without a minimum.

    Numbers.  The fields [id] and [date_start] are JavaScript numbers that
    hold integers (identifiers and years); they are modelled by [Z].  On
    integers of that size [Math.floor(y / 10)] is the floor of the exact
    quotient, which is [Z.div].  Optional fields ([date_start?: number])
    are [option]s, [None] standing for [undefined]. *)

From Stdlib Require Import String Ascii DecimalString.
From Stdlib Require Import ZArith Bool Lia List Sorted Permutation.
From Stdlib Require DecimalZ DecimalPos.
Import ListNotations.
Open Scope Z_scope.

(** ** The JavaScript primitives the component uses *)

Module Js.

(** [String(n)] and the template literal [`${n}`] on an integer. *)
Definition String_of_number (n : Z) : string :=
  NilZero.string_of_int (Z.to_int n).

(** Truthiness ([ToBoolean]) of a number that is not NaN, of a string,
    and of an optional value. *)
Definition truthy_number (n : Z) : bool := negb (n =? 0).

Definition truthy_string (s : string) : bool := negb (s =? EmptyString)%string.

Definition truthy_opt {A} (truthy : A -> bool) (o : option A) : bool :=
  match o with
  | Some a => truthy a
  | None => false
  end.

(** [o ?? d] *)
Definition nullish {A} (o : option A) (d : A) : A :=
  match o with
  | Some a => a
  | None => d
  end.

(** [Array.prototype.sort(cmp)].  The language requires the sort to be
    stable, and for a consistent comparator the result is then
    determined: the stable insertion sort below computes it.  [cmp a b]
    positive means that [a] goes after [b]. *)
Section Sort.
Context {A : Type} (cmp : A -> A -> Z).

Fixpoint insert (x : A) (l : list A) : list A :=
  match l with
  | [] => [x]
  | y :: l' => if cmp x y <=? 0 then x :: y :: l' else y :: insert x l'
  end.

Definition sort (l : list A) : list A := fold_right insert [] l.
End Sort.

(** [Map<number, V>]: keys are compared by value and iteration follows
    the order in which the keys were first inserted, so a map is the
    list of its entries in that order. *)
Module Map.
Definition t (V : Type) : Type := list (Z * V).

Definition empty {V} : t V := [].

Fixpoint get {V} (k : Z) (m : t V) : option V :=
  match m with
  | [] => None
  | (k', v) :: m' => if k' =? k then Some v else get k m'
  end.

Definition has {V} (k : Z) (m : t V) : bool :=
  match get k m with
  | Some _ => true
  | None => false
  end.

(** [set] overwrites the value of a present key in place and appends
    a new key at the end. *)
Fixpoint set {V} (k : Z) (v : V) (m : t V) : t V :=
  match m with
  | [] => [(k, v)]
  | (k', v') :: m' =>
      if k' =? k then (k, v) :: m' else (k', v') :: set k v m'
  end.

Definition entries {V} (m : t V) : list (Z * V) := m.
Definition keys {V} (m : t V) : list Z := map fst m.
Definition values {V} (m : t V) : list V := map snd m.
End Map.

End Js.

(** ** Data model (lines 3-20, the same in both variants) *)

Record Artwork : Type := {
  id : Z;
  title : string;
  artist_display : option string;
  date_display : option string;
  date_start : option Z;
  image_id : option string
}.

Record ArtworkApiResponse : Type := { data : list Artwork }.

Record DecadeCollection : Type := {
  label : string;
  startYear : Z;
  artworks : list Artwork
}.

(** ** [imageUrl] (lines 27-30 and 239-242, the same in both variants) *)

Definition imageUrl (imageId : option string) : string :=
  let fallback :=
    "https://images.artic.edu/iiif/2/8d6f8f8b-fafa-376e-4f0f-0a36d4f7288f/full/843,/0/default.jpg"%string in
  match imageId with
  | Some imageId =>
      if Js.truthy_string imageId
      then ("https://www.artic.edu/iiif/2/" ++ imageId ++ "/full/843,/0/default.jpg")%string
      else fallback
  | None => fallback
  end.

(** ** The retention filter (line 80 and line 270):
       [(item) => item.date_start && item.title] *)

Definition retained (item : Artwork) : bool :=
  Js.truthy_opt Js.truthy_number (date_start item) && Js.truthy_string (title item).

(** ** The bucketizer, part shared by both variants
       (lines 93-104 and 283-294, and the [map] callback of lines 107-111
       and 298-302) *)

(** [Math.floor(artwork.date_start / 10) * 10] *)
Definition decadeStart (y : Z) : Z := (y / 10) * 10.

(** One turn of [artworks.forEach]: records whose [date_start] is not a
    number are skipped, the others are pushed on the array of their
    decade. *)
Definition addToBucket (buckets : Js.Map.t (list Artwork)) (artwork : Artwork)
  : Js.Map.t (list Artwork) :=
  match date_start artwork with
  | None => buckets
  | Some y =>
      let current := Js.nullish (Js.Map.get (decadeStart y) buckets) [] in
      Js.Map.set (decadeStart y) (current ++ [artwork]) buckets
  end.

Definition buckets (arts : list Artwork) : Js.Map.t (list Artwork) :=
  fold_left addToBucket arts Js.Map.empty.

(** [(a, b) => (a.date_start ?? 0) - (b.date_start ?? 0)] *)
Definition byDateStart (a b : Artwork) : Z :=
  Js.nullish (date_start a) 0 - Js.nullish (date_start b) 0.

(** [([startYear, items]) => ({ label: `${startYear}s`, startYear,
    artworks: items.sort(...) })] *)
Definition toCollection (entry : Z * list Artwork) : DecadeCollection :=
  let '(startYear, items) := entry in
  {| label := (Js.String_of_number startYear ++ "s")%string;
     startYear := startYear;
     artworks := Js.sort byDateStart items |}.

(** ** What a fetch can give back (both variants)

    A thrown value is an [Error] object with its message or something
    else; the handler of lines 82-83 and 272-273 tells them apart with
    [err instanceof Error]. *)

Inductive Exn : Type :=
| Error (message : string)
| NotAnError.

(** A [Response]: the two fields the code reads and the outcome of
    [response.json()]. *)
Record Response : Type := {
  ok : bool;
  status : Z;
  json : Exn + ArtworkApiResponse
}.

(** [err instanceof Error ? err.message : 'Unexpected error loading data'] *)
Definition errorMessage (err : Exn) : string :=
  match err with
  | Error message => message
  | NotAnError => "Unexpected error loading data"%string
  end.

(** [new Error(`Unable to load artwork data (HTTP ${response.status})`)] *)
Definition httpError (response : Response) : Exn :=
  Error ("Unable to load artwork data (HTTP " ++ Js.String_of_number (status response) ++ ")")%string.

(** The body of a page once its response is there (lines 47-52 and
    265-269): a response that is not [ok] throws, otherwise the [data]
    array of the parsed body is returned. *)
Definition readPage (response : Response) : Exn + list Artwork :=
  if negb (ok response) then inl (httpError response)
  else match json response with
       | inl err => inl err
       | inr body => inr (data body)
       end.

(** ** The multi-page variant (lines 1-214) *)

Module MultiPage.

Definition API_URL : string := "https://api.artic.edu/api/v1/artworks".
Definition ARTWORK_FIELDS : string :=
  "id,title,artist_display,date_display,date_start,image_id".
Definition PAGE_LIMIT : Z := 100.
Definition TOTAL_PAGES : Z := 10.

(** A request is the URL of lines 41-44: the endpoint and the search
    parameters set on it. *)
Record Request : Type := {
  endpoint : string;
  searchParams : list (string * string)
}.

Definition request (page : Z) : Request :=
  {| endpoint := API_URL;
     searchParams := [ ("fields", ARTWORK_FIELDS);
                       ("page", Js.String_of_number page);
                       ("limit", Js.String_of_number PAGE_LIMIT) ]%string |}.

(** The network answers a request with a rejection of [fetch] or with
    a response; [settledAt] is the moment at which the promise of that
    page settles, the only thing [Promise.all] needs of real time. *)
Record Reply : Type := {
  settledAt : nat;
  fetched : Exn + Response
}.

Definition Network : Type := Request -> Reply.

(** A started promise: when it settles, and how. *)
Definition Promise (A : Type) : Type := (nat * (Exn + A))%type.

(** The state of the component ([useState], lines 56-60). *)
Module State.
Record t : Type := {
  artworks : list Artwork;
  selectedIndex : Z;
  selectedArtwork : option Artwork;
  isLoading : bool;
  error : option string
}.

Definition initial : t :=
  {| artworks := []; selectedIndex := 0; selectedArtwork := None;
     isLoading := true; error := None |}.
End State.

(** The component state together with the requests sent so far. *)
Record World : Type := {
  state : State.t;
  sent : list Request
}.

Definition initialWorld : World := {| state := State.initial; sent := [] |}.

Definition onState (f : State.t -> State.t) (w : World) : World :=
  {| state := f (state w); sent := sent w |}.

Definition setArtworks (v : list Artwork) : World -> World :=
  onState (fun s =>
    {| State.artworks := v; State.selectedIndex := State.selectedIndex s;
       State.selectedArtwork := State.selectedArtwork s;
       State.isLoading := State.isLoading s; State.error := State.error s |}).

Definition setSelectedIndex (f : Z -> Z) : World -> World :=
  onState (fun s =>
    {| State.artworks := State.artworks s;
       State.selectedIndex := f (State.selectedIndex s);
       State.selectedArtwork := State.selectedArtwork s;
       State.isLoading := State.isLoading s; State.error := State.error s |}).

Definition setIsLoading (v : bool) : World -> World :=
  onState (fun s =>
    {| State.artworks := State.artworks s; State.selectedIndex := State.selectedIndex s;
       State.selectedArtwork := State.selectedArtwork s;
       State.isLoading := v; State.error := State.error s |}).

Definition setError (v : option string) : World -> World :=
  onState (fun s =>
    {| State.artworks := State.artworks s; State.selectedIndex := State.selectedIndex s;
       State.selectedArtwork := State.selectedArtwork s;
       State.isLoading := State.isLoading s; State.error := v |}).

(** [fetch(url.toString())]: the request goes out, the reply is the
    network's. *)
Definition fetch (net : Network) (req : Request) (w : World) : Reply * World :=
  (net req, {| state := state w; sent := sent w ++ [req] |}).

(** [fetchArtworkPage] (lines 40-53): calling it sends the request and
    gives back the promise of the page. *)
Definition fetchArtworkPage (net : Network) (page : Z) (w : World)
  : Promise (list Artwork) * World :=
  let '(reply, w) := fetch net (request page) w in
  ((settledAt reply,
    match fetched reply with
    | inl err => inl err
    | inr response => readPage response
    end), w).

(** [Array.from({ length: TOTAL_PAGES }, (_, index) => index + 1)] *)
Definition pageNumbers : list Z :=
  map (fun index => Z.of_nat index + 1) (seq 0 (Z.to_nat TOTAL_PAGES)).

(** [pageNumbers.map((page) => fetchArtworkPage(page))]: every call is
    made, in page order, before any promise is awaited. *)
Fixpoint startPages (net : Network) (pages : list Z) (w : World)
  : list (Promise (list Artwork)) * World :=
  match pages with
  | [] => ([], w)
  | page :: rest =>
      let '(p, w) := fetchArtworkPage net page w in
      let '(ps, w) := startPages net rest w in
      (p :: ps, w)
  end.

(** [Promise.all]: rejected with the reason of the promise that rejects
    first in time (the earlier in the array when two settle together),
    fulfilled with the values in array order when none rejects. *)
Fixpoint firstRejection {A} (ps : list (Promise A)) : option (nat * Exn) :=
  match ps with
  | [] => None
  | (t, inl err) :: rest =>
      match firstRejection rest with
      | Some (t', err') => if (t' <? t)%nat then Some (t', err') else Some (t, err)
      | None => Some (t, err)
      end
  | (_, inr _) :: rest => firstRejection rest
  end.

Fixpoint fulfilledValues {A} (ps : list (Promise A)) : list A :=
  match ps with
  | [] => []
  | (_, inr v) :: rest => v :: fulfilledValues rest
  | (_, inl _) :: rest => fulfilledValues rest
  end.

Definition Promise_all {A} (ps : list (Promise A)) : Exn + list A :=
  match firstRejection ps with
  | Some (_, err) => inl err
  | None => inr (fulfilledValues ps)
  end.

(** Lines 71-80: the aggregator. *)
Definition merged (pages : list (list Artwork)) : list Artwork := concat pages.

Definition dedupeStep (deduped : Js.Map.t Artwork) (item : Artwork) : Js.Map.t Artwork :=
  if Js.truthy_number (id item) && negb (Js.Map.has (id item) deduped)
  then Js.Map.set (id item) item deduped
  else deduped.

Definition deduped (pages : list (list Artwork)) : Js.Map.t Artwork :=
  fold_left dedupeStep (merged pages) Js.Map.empty.

Definition filtered (pages : list (list Artwork)) : list Artwork :=
  filter retained (Js.Map.values (deduped pages)).

(** [fetchArtworks] (lines 63-87): [try], [catch], [finally]. *)
Definition fetchArtworks (net : Network) (w : World) : World :=
  let w := setIsLoading true w in
  let w := setError None w in
  let '(promises, w) := startPages net pageNumbers w in
  let w :=
    match Promise_all promises with
    | inr pages => setArtworks (filtered pages) w
    | inl err => setError (Some (errorMessage err)) w
    end in
  setIsLoading false w.

(** [decades] (lines 92-114): [map], then [filter], then [sort]. *)
Definition decades (arts : list Artwork) : list DecadeCollection :=
  Js.sort (fun a b => startYear a - startYear b)
    (filter (fun collection => (20 <=? length (artworks collection))%nat)
       (map toCollection (Js.Map.entries (buckets arts)))).

(** The effect of lines 116-122, run when [decades] changes. *)
Definition clampSelectedIndex (decades : list DecadeCollection) (w : World) : World :=
  if Z.of_nat (length decades) =? 0 then w
  else setSelectedIndex (fun current => Z.min current (Z.of_nat (length decades) - 1)) w.

End MultiPage.

(** ** The single-page variant (lines 215-370) *)

Module SinglePage.

Definition API_URL : string :=
  "https://api.artic.edu/api/v1/artworks?fields=id,title,artist_display,date_display,date_start,image_id&page=1&limit=100".

(** The network answers the URL with a rejection of [fetch] or with a
    response. *)
Definition Network : Type := string -> Exn + Response.

(** [useState], lines 253-256. *)
Module State.
Record t : Type := {
  artworks : list Artwork;
  selectedIndex : Z;
  isLoading : bool;
  error : option string
}.

Definition initial : t :=
  {| artworks := []; selectedIndex := 0; isLoading := true; error := None |}.
End State.

Record World : Type := {
  state : State.t;
  sent : list string
}.

Definition initialWorld : World := {| state := State.initial; sent := [] |}.

Definition onState (f : State.t -> State.t) (w : World) : World :=
  {| state := f (state w); sent := sent w |}.

Definition setArtworks (v : list Artwork) : World -> World :=
  onState (fun s =>
    {| State.artworks := v; State.selectedIndex := State.selectedIndex s;
       State.isLoading := State.isLoading s; State.error := State.error s |}).

Definition setSelectedIndex (f : Z -> Z) : World -> World :=
  onState (fun s =>
    {| State.artworks := State.artworks s;
       State.selectedIndex := f (State.selectedIndex s);
       State.isLoading := State.isLoading s; State.error := State.error s |}).

Definition setIsLoading (v : bool) : World -> World :=
  onState (fun s =>
    {| State.artworks := State.artworks s; State.selectedIndex := State.selectedIndex s;
       State.isLoading := v; State.error := State.error s |}).

Definition setError (v : option string) : World -> World :=
  onState (fun s =>
    {| State.artworks := State.artworks s; State.selectedIndex := State.selectedIndex s;
       State.isLoading := State.isLoading s; State.error := v |}).

Definition fetch (net : Network) (url : string) (w : World)
  : (Exn + Response) * World :=
  (net url, {| state := state w; sent := sent w ++ [url] |}).

(** Line 270: the single page is filtered as it is. *)
Definition filtered (page : list Artwork) : list Artwork := filter retained page.

(** [fetchArtworks] (lines 259-277). *)
Definition fetchArtworks (net : Network) (w : World) : World :=
  let w := setIsLoading true w in
  let w := setError None w in
  let '(reply, w) := fetch net API_URL w in
  let w :=
    match match reply with
          | inl err => inl err
          | inr response => readPage response
          end with
    | inr page => setArtworks (filtered page) w
    | inl err => setError (Some (errorMessage err)) w
    end in
  setIsLoading false w.

(** [decades] (lines 282-303): [sort] on the entries, then [map]. *)
Definition decades (arts : list Artwork) : list DecadeCollection :=
  map toCollection
    (Js.sort (fun a b => fst a - fst b) (Js.Map.entries (buckets arts))).

(** The effect of lines 305-311, run when [decades] changes. *)
Definition clampSelectedIndex (decades : list DecadeCollection) (w : World) : World :=
  if Z.of_nat (length decades) =? 0 then w
  else setSelectedIndex (fun current => Z.min current (Z.of_nat (length decades) - 1)) w.

End SinglePage.

(** ** Text helpers and the view (both variants)

    Strings.  A string is the sequence of its code units, taken below
    256 (Latin-1), where the white space and line terminators that
    [String.prototype.trim] strips are the code units 9 to 13, 32 and
    160. *)

Module JsString.

Definition isWhiteSpace (c : ascii) : bool :=
  let n := nat_of_ascii c in
  ((9 <=? n) && (n <=? 13) || (n =? 32) || (n =? 160))%nat.

Fixpoint trimStart (s : string) : string :=
  match s with
  | EmptyString => EmptyString
  | String c s' => if isWhiteSpace c then trimStart s' else s
  end.

Fixpoint trimEnd (s : string) : string :=
  match s with
  | EmptyString => EmptyString
  | String c s' =>
      match trimEnd s' with
      | EmptyString => if isWhiteSpace c then EmptyString else String c EmptyString
      | t => String c t
      end
  end.

(** [s.trim()] *)
Definition trim (s : string) : string := trimEnd (trimStart s).

(** [s.split(sep)] for a separator of one code unit: the pieces between
    the separators, one piece at least. *)
Fixpoint split (sep : ascii) (s : string) : list string :=
  match s with
  | EmptyString => [EmptyString]
  | String c s' =>
      if Ascii.eqb c sep then EmptyString :: split sep s'
      else match split sep s' with
           | first :: rest => String c first :: rest
           | [] => [String c EmptyString]
           end
  end.

(** The line feed of ['\n']. *)
Definition LF : ascii := ascii_of_nat 10.

End JsString.

(** [formatArtist] (lines 32-38 and 244-250). *)
Definition formatArtist (artistDisplay : option string) : string :=
  match artistDisplay with
  | None => "Unknown artist"%string
  | Some artistDisplay =>
      if negb (Js.truthy_string (JsString.trim artistDisplay))
      then "Unknown artist"%string
      else Js.nullish
             (option_map JsString.trim
                (nth_error (JsString.split JsString.LF artistDisplay) 0))
             "Unknown artist"%string
  end.

(** [decades[selectedIndex]] (lines 124 and 313): [undefined] outside
    the list. *)
Definition activeDecade (decades : list DecadeCollection) (selectedIndex : Z)
  : option DecadeCollection :=
  if selectedIndex <? 0 then None else nth_error decades (Z.to_nat selectedIndex).

(** [{artwork.date_display || artwork.date_start}] (lines 176, 205 and
    359): the text of the date line, empty when neither is there. *)
Definition dateLine (artwork : Artwork) : string :=
  if Js.truthy_opt Js.truthy_string (date_display artwork)
  then Js.nullish (date_display artwork) EmptyString
  else match date_start artwork with
       | Some y => Js.String_of_number y
       | None => EmptyString
       end.

(** A card of the grid (lines 165-178 and 354-361): its React key, the
    image and the three lines of text. *)
Record Card : Type := {
  key : Z;
  src : string;
  alt : string;
  heading : string;
  artistLine : string;
  dateText : string
}.

Definition card (artwork : Artwork) : Card :=
  {| key := id artwork;
     src := imageUrl (image_id artwork);
     alt := title artwork;
     heading := title artwork;
     artistLine := formatArtist (artist_display artwork);
     dateText := dateLine artwork |}.

(** The three labels under the slider (lines 157-159 and 346-348):
    [decades[0]?.label], [decades[Math.floor(decades.length / 2)]?.label]
    and [decades[decades.length - 1]?.label]. *)
Definition timelineLabels (decades : list DecadeCollection)
  : option string * option string * option string :=
  (option_map label (activeDecade decades 0),
   option_map label (activeDecade decades (Z.of_nat (length decades) / 2)),
   option_map label (activeDecade decades (Z.of_nat (length decades) - 1))).

(** The view of the multi-page variant (lines 137-182). *)
Module MultiPageView.

(** [isLoading && ...], [error && ...] and
    [!isLoading && !error && decades.length > 0 && ...]. *)
Definition showsLoading (w : MultiPage.World) : bool :=
  MultiPage.State.isLoading (MultiPage.state w).

Definition showsError (w : MultiPage.World) : bool :=
  Js.truthy_opt Js.truthy_string (MultiPage.State.error (MultiPage.state w)).

Definition currentDecades (w : MultiPage.World) : list DecadeCollection :=
  MultiPage.decades (MultiPage.State.artworks (MultiPage.state w)).

Definition showsExplorer (w : MultiPage.World) : bool :=
  negb (MultiPage.State.isLoading (MultiPage.state w))
  && negb (Js.truthy_opt Js.truthy_string (MultiPage.State.error (MultiPage.state w)))
  && (0 <? Z.of_nat (length (currentDecades w))).

(** [activeDecade.artworks.slice(0, 20).map(...)] *)
Definition cards (activeDecade : DecadeCollection) : list Card :=
  map card (firstn 20 (artworks activeDecade)).

(** The slider (line 152): [setSelectedIndex(Number(event.target.value))]. *)
Definition onSliderChange (value : Z) : MultiPage.World -> MultiPage.World :=
  MultiPage.setSelectedIndex (fun _ => value).

End MultiPageView.

(** The view of the single-page variant (lines 326-365). *)
Module SinglePageView.

Definition showsLoading (w : SinglePage.World) : bool :=
  SinglePage.State.isLoading (SinglePage.state w).

Definition showsError (w : SinglePage.World) : bool :=
  Js.truthy_opt Js.truthy_string (SinglePage.State.error (SinglePage.state w)).

Definition currentDecades (w : SinglePage.World) : list DecadeCollection :=
  SinglePage.decades (SinglePage.State.artworks (SinglePage.state w)).

Definition showsExplorer (w : SinglePage.World) : bool :=
  negb (SinglePage.State.isLoading (SinglePage.state w))
  && negb (Js.truthy_opt Js.truthy_string (SinglePage.State.error (SinglePage.state w)))
  && (0 <? Z.of_nat (length (currentDecades w))).

(** [activeDecade.artworks.slice(0, 12).map(...)] *)
Definition cards (activeDecade : DecadeCollection) : list Card :=
  map card (firstn 12 (artworks activeDecade)).

Definition onSliderChange (value : Z) : SinglePage.World -> SinglePage.World :=
  SinglePage.setSelectedIndex (fun _ => value).

End SinglePageView.

(** * Predicates used in the statements *)

(** A list is ascending by a numeric key. *)
Definition ascending {A : Type} (key : A -> Z) (l : list A) : Prop :=
  StronglySorted (fun a b => key a <= key b) l.

(** The records of [arts] that the bucketizer files under decade [k],
    and those it files at all ([typeof date_start === 'number']). *)
Definition inDecade (k : Z) (r : Artwork) : bool :=
  match date_start r with
  | Some y => decadeStart y =? k
  | None => false
  end.

Definition hasYear (r : Artwork) : bool :=
  match date_start r with
  | Some _ => true
  | None => false
  end.

(** What [buckets.get] finds for a decade whose records are [l]. *)
Definition nonEmpty {A : Type} (l : list A) : option (list A) :=
  match l with
  | [] => None
  | _ => Some l
  end.

(** The record [r] is a member of the bucket at exactly one position of
    the bucket list [ds]. *)
Definition inExactlyOneBucket (r : Artwork) (ds : list DecadeCollection) : Prop :=
  exists i c,
    nth_error ds i = Some c /\ In r (artworks c) /\
    forall j c', nth_error ds j = Some c' -> In r (artworks c') -> j = i.

(** The minimum bucket size of the multi-page variant (line 112). *)
Definition bigEnough (c : DecadeCollection) : bool := (20 <=? length (artworks c))%nat.

(** [l1] is [l2] with some elements left out, the order kept. *)
Inductive Subsequence {A : Type} : list A -> list A -> Prop :=
| sub_nil : Subsequence [] []
| sub_skip x l1 l2 : Subsequence l1 l2 -> Subsequence l1 (x :: l2)
| sub_keep x l1 l2 : Subsequence l1 l2 -> Subsequence (x :: l1) (x :: l2).

(** The string [s] occurs in the string [m]. *)
Definition Contains (s m : string) : Prop :=
  exists pre post, m = (pre ++ s ++ post)%string.

(** The first record of [l] that has the identifier [k]; none for the
    identifier 0, which is falsy. *)
Definition firstWithId (k : Z) (l : list Artwork) : option Artwork :=
  if k =? 0 then None else find (fun x => id x =? k) l.

(** Deduplication in the words of the specification: of the records of
    [l] that share an identifier only the first stays, the order of [l]
    kept. *)
Fixpoint firstOccurrences (l : list Artwork) : list Artwork :=
  match l with
  | [] => []
  | x :: l' => x :: filter (fun y => negb (id y =? id x)) (firstOccurrences l')
  end.

(** [a] and [b] have start years, in ascending order. *)
Definition yearLe (a b : Artwork) : Prop :=
  exists ya yb, date_start a = Some ya /\ date_start b = Some yb /\ ya <= yb.

(** The promise [fetchArtworkPage] gives back in the multi-page variant
    and whether it rejects. *)
Definition pagePromise (net : MultiPage.Network) (page : Z)
  : MultiPage.Promise (list Artwork) :=
  fst (MultiPage.fetchArtworkPage net page MultiPage.initialWorld).

Definition rejectsWith (net : MultiPage.Network) (page : Z) (err : Exn) : Prop :=
  snd (pagePromise net page) = inl err.

(** ** Predicates on text *)

(** Every code unit of [s] is white space. *)
Fixpoint blank (s : string) : bool :=
  match s with
  | EmptyString => true
  | String c s' => JsString.isWhiteSpace c && blank s'
  end.

(** The code unit [c] occurs in [s]. *)
Fixpoint occursIn (c : ascii) (s : string) : bool :=
  match s with
  | EmptyString => false
  | String c' s' => Ascii.eqb c' c || occursIn c s'
  end.

(** [s] starts, ends, with a white space. *)
Definition startsWhite (s : string) : bool :=
  match s with
  | EmptyString => false
  | String c _ => JsString.isWhiteSpace c
  end.

Fixpoint endsWhite (s : string) : bool :=
  match s with
  | EmptyString => false
  | String c EmptyString => JsString.isWhiteSpace c
  | String _ s' => endsWhite s'
  end.

(** The part of [s] before its first line feed, all of [s] when it has
    none. *)
Fixpoint firstLine (s : string) : string :=
  match s with
  | EmptyString => EmptyString
  | String c s' => if Ascii.eqb c JsString.LF then EmptyString else String c (firstLine s')
  end.

(** The records a fulfilled page promise carries (none when it
    rejects). *)
Definition pageData (net : MultiPage.Network) (page : Z) : list Artwork :=
  match snd (pagePromise net page) with
  | inr records => records
  | inl _ => []
  end.

(** The record [r] has the start year [y]. *)
Definition hasStartYear (y : Z) (r : Artwork) : bool :=
  match date_start r with
  | Some y' => y' =? y
  | None => false
  end.

(** ** Sample data

    A record with the three fields the scenarios of the specification
    give, the optional others absent, and the page of its scenario. *)
Definition artwork (i : Z) (t : string) (y : option Z) : Artwork :=
  {| id := i; title := t; artist_display := None; date_display := None;
     date_start := y; image_id := None |}.

Definition scenarioPage : list Artwork :=
  [ artwork 1 "A" (Some 1923);
    artwork 2 EmptyString (Some 1925);
    artwork 1 "A-dup" (Some 1923) ].

(** Two pages with an identifier on both. *)
Definition twoPages : list (list Artwork) :=
  [ [artwork 1 "A" (Some 1923); artwork 2 "B" (Some 1950)];
    [artwork 1 "A-dup" (Some 1923); artwork 3 "C" (Some 1931)] ].

(** Responses: a success that carries a page, a failure with a status
    code. *)
Definition okResponse (page : list Artwork) : Response :=
  {| ok := true; status := 200; json := inr {| data := page |} |}.

Definition failedResponse (code : Z) : Response :=
  {| ok := false; status := code; json := inr {| data := [] |} |}.

(** The request asks for the page [p]. *)
Definition isPage (p : Z) (req : MultiPage.Request) : bool :=
  existsb (fun kv => (fst kv =? "page")%string
                     && (snd kv =? Js.String_of_number p)%string)
          (MultiPage.searchParams req).

(** The network of the scenario: the page of the scenario is page 1 and
    the other pages are empty (multi-page), or it is the only page
    (single-page). *)
Definition scenarioNetwork : MultiPage.Network :=
  fun req =>
    {| MultiPage.settledAt := 0;
       MultiPage.fetched := inr (okResponse (if isPage 1 req then scenarioPage else [])) |}.

Definition scenarioNetworkSingle : SinglePage.Network :=
  fun _ => inr (okResponse scenarioPage).

(** A network on which page 3 answers with status 500 before the other
    pages answer, and one that answers the single page with 500. *)
Definition failingNetwork : MultiPage.Network :=
  fun req =>
    if isPage 3 req
    then {| MultiPage.settledAt := 5; MultiPage.fetched := inr (failedResponse 500) |}
    else {| MultiPage.settledAt := 10; MultiPage.fetched := inr (okResponse []) |}.

Definition failingNetworkSingle : SinglePage.Network :=
  fun _ => inr (failedResponse 500).

(** A network on which the [fetch] of page 1 rejects at once, as when
    the network is down, page 3 answers with status 500 later, and the
    other pages answer later still. *)
Definition mixedFailureNetwork : MultiPage.Network :=
  fun req =>
    if isPage 1 req
    then {| MultiPage.settledAt := 0; MultiPage.fetched := inl (Error "network down") |}
    else if isPage 3 req
    then {| MultiPage.settledAt := 5; MultiPage.fetched := inr (failedResponse 500) |}
    else {| MultiPage.settledAt := 10; MultiPage.fetched := inr (okResponse []) |}.

(** A page of twenty records of the 1920s, of identifiers 1 to 20, and
    the network that answers page 1 with it and the other pages with
    nothing. *)
Definition fullDecadePage : list Artwork :=
  map (fun i => artwork (Z.of_nat i) "A" (Some 1923)) (seq 1 20).

Definition galleryNetwork : MultiPage.Network :=
  fun req =>
    {| MultiPage.settledAt := 0;
       MultiPage.fetched := inr (okResponse (if isPage 1 req then fullDecadePage else [])) |}.

(** * Facts about the JavaScript primitives *)

(** ** [Array.prototype.sort] *)

Section SortFacts.
Context {A : Type}.

Lemma insert_Permutation (cmp : A -> A -> Z) (x : A) (l : list A) :
  Permutation (Js.insert cmp x l) (x :: l).
Proof.
  induction l as [|y l IH]; simpl.
  - reflexivity.
  - destruct (cmp x y <=? 0).
    + reflexivity.
    + rewrite IH. apply perm_swap.
Qed.

Lemma sort_Permutation (cmp : A -> A -> Z) (l : list A) :
  Permutation (Js.sort cmp l) l.
Proof.
  induction l as [|x l IH]; simpl.
  - reflexivity.
  - rewrite insert_Permutation. now apply perm_skip.
Qed.

Lemma sort_In (cmp : A -> A -> Z) (l : list A) (x : A) :
  In x (Js.sort cmp l) <-> In x l.
Proof.
  split; apply Permutation_in;
    [ apply sort_Permutation | symmetry; apply sort_Permutation ].
Qed.

(** The comparators of the component all subtract a numeric key. *)
Variable key : A -> Z.

Lemma insert_ascending (x : A) (l : list A) :
  ascending key l -> ascending key (Js.insert (fun a b => key a - key b) x l).
Proof.
  unfold ascending. induction 1 as [|y l Hl IH Hy]; simpl.
  - repeat constructor.
  - destruct (key x - key y <=? 0) eqn:E.
    + apply Z.leb_le in E. constructor.
      * now constructor.
      * constructor; [lia|].
        rewrite Forall_forall in *. intros z Hz. specialize (Hy z Hz). lia.
    + apply Z.leb_gt in E. constructor; [exact IH|].
      rewrite Forall_forall in *. intros z Hz.
      apply (Permutation_in _ (insert_Permutation _ x l)) in Hz.
      destruct Hz as [<-|Hz]; [lia | now apply Hy].
Qed.

Lemma sort_ascending (l : list A) :
  ascending key (Js.sort (fun a b => key a - key b) l).
Proof.
  induction l as [|x l IH]; simpl.
  - constructor.
  - now apply insert_ascending.
Qed.

(** On an ascending list, filtering commutes with insertion. *)
Lemma filter_insert (p : A -> bool) (x : A) (l : list A) :
  ascending key l ->
  filter p (Js.insert (fun a b => key a - key b) x l) =
  if p x then Js.insert (fun a b => key a - key b) x (filter p l) else filter p l.
Proof.
  unfold ascending. induction 1 as [|y l Hl IH Hy]; simpl.
  - now destruct (p x).
  - destruct (key x - key y <=? 0) eqn:E; simpl.
    + destruct (p x) eqn:Px, (p y) eqn:Py; simpl; rewrite ?E; try reflexivity.
      apply Z.leb_le in E.
      assert (Hf : Forall (fun z => key y <= key z) (filter p l)).
      { rewrite Forall_forall in *. intros z Hz. apply filter_In in Hz. now apply Hy. }
      destruct (filter p l) as [|z f]; [reflexivity|]. simpl.
      inversion Hf; subst.
      replace (key x - key z <=? 0) with true; [reflexivity|].
      symmetry. apply Z.leb_le. lia.
    + rewrite IH. destruct (p x) eqn:Px, (p y) eqn:Py; simpl; rewrite ?E; reflexivity.
Qed.

Lemma filter_sort (p : A -> bool) (l : list A) :
  filter p (Js.sort (fun a b => key a - key b) l) =
  Js.sort (fun a b => key a - key b) (filter p l).
Proof.
  induction l as [|x l IH]; simpl.
  - reflexivity.
  - rewrite filter_insert by apply sort_ascending.
    rewrite IH. now destruct (p x).
Qed.
End SortFacts.

(** Sorting the images is the image of sorting, when the comparators
    agree. *)
Lemma map_sort {A B : Type} (f : A -> B) (cmpA : A -> A -> Z) (cmpB : B -> B -> Z) :
  (forall a b, cmpB (f a) (f b) = cmpA a b) ->
  forall l, map f (Js.sort cmpA l) = Js.sort cmpB (map f l).
Proof.
  intros Hcmp. induction l as [|x l IH]; simpl.
  - reflexivity.
  - rewrite <- IH. generalize (Js.sort cmpA l) as s.
    induction s as [|y s IHs]; simpl.
    + reflexivity.
    + rewrite Hcmp. destruct (cmpA x y <=? 0); simpl; [reflexivity|].
      now rewrite IHs.
Qed.

(** ** [Map] *)

Section MapFacts.
Context {V : Type}.
Implicit Types (m : Js.Map.t V) (k : Z) (v : V).

Lemma get_set_same m k v : Js.Map.get k (Js.Map.set k v m) = Some v.
Proof.
  induction m as [|[k' v'] m IH]; simpl.
  - now rewrite Z.eqb_refl.
  - destruct (k' =? k) eqn:E; simpl.
    + now rewrite Z.eqb_refl.
    + now rewrite E.
Qed.

Lemma get_set_other m k k' v :
  k <> k' -> Js.Map.get k' (Js.Map.set k v m) = Js.Map.get k' m.
Proof.
  intros Hne. induction m as [|[k0 v0] m IH]; simpl.
  - apply Z.eqb_neq in Hne. now rewrite Hne.
  - destruct (k0 =? k) eqn:E; simpl.
    + apply Z.eqb_eq in E; subst k0.
      apply Z.eqb_neq in Hne. now rewrite Hne.
    + now rewrite IH.
Qed.

Lemma get_None_keys m k : Js.Map.get k m = None <-> ~ In k (Js.Map.keys m).
Proof.
  induction m as [|[k' v'] m IH]; simpl.
  - tauto.
  - destruct (k' =? k) eqn:E.
    + apply Z.eqb_eq in E. split; [discriminate | intros H; exfalso; auto].
    + apply Z.eqb_neq in E. rewrite IH. tauto.
Qed.

Lemma get_Some_In m k v : Js.Map.get k m = Some v -> In (k, v) m.
Proof.
  induction m as [|[k' v'] m IH]; simpl; [discriminate|].
  destruct (k' =? k) eqn:E.
  - apply Z.eqb_eq in E. intros [= ->]. left. now subst.
  - auto.
Qed.

Lemma In_get_Some m k v :
  NoDup (Js.Map.keys m) -> In (k, v) m -> Js.Map.get k m = Some v.
Proof.
  induction m as [|[k' v'] m IH]; simpl; [tauto|].
  intros Hnd [Heq|Hin]; inversion Hnd as [|? ? Hnotin Hnd']; subst.
  - injection Heq as -> ->. now rewrite Z.eqb_refl.
  - destruct (k' =? k) eqn:E; [|now apply IH].
    apply Z.eqb_eq in E; subst k'. exfalso. apply Hnotin.
    change k with (fst (k, v)). now apply in_map.
Qed.

(** [set] on a present key keeps the keys and their order, on an
    absent key it appends the key. *)
Lemma keys_set m k v :
  Js.Map.keys (Js.Map.set k v m) =
  if Js.Map.has k m then Js.Map.keys m else Js.Map.keys m ++ [k].
Proof.
  unfold Js.Map.has. induction m as [|[k' v'] m IH]; simpl.
  - reflexivity.
  - destruct (k' =? k) eqn:E; simpl.
    + apply Z.eqb_eq in E. now subst.
    + rewrite IH. now destruct (Js.Map.get k m).
Qed.

Lemma set_NoDup m k v :
  NoDup (Js.Map.keys m) -> NoDup (Js.Map.keys (Js.Map.set k v m)).
Proof.
  intros Hnd. rewrite keys_set. unfold Js.Map.has.
  destruct (Js.Map.get k m) eqn:E; [exact Hnd|].
  apply get_None_keys in E.
  apply NoDup_rev in Hnd. rewrite <- (rev_involutive (_ ++ _)).
  apply NoDup_rev. rewrite rev_app_distr. simpl. constructor; [|exact Hnd].
  now rewrite <- in_rev.
Qed.

(** On an absent key [set] appends the entry. *)
Lemma set_absent m k v :
  Js.Map.get k m = None -> Js.Map.set k v m = m ++ [(k, v)].
Proof.
  induction m as [|[k' v'] m IH]; simpl; [reflexivity|].
  destruct (k' =? k); [discriminate|]. intros H. now rewrite IH.
Qed.
End MapFacts.

(** * The bucketizer *)

Section BucketFacts.

Lemma filter_snoc {A : Type} (p : A -> bool) (l : list A) (x : A) :
  filter p (l ++ [x]) = if p x then filter p l ++ [x] else filter p l.
Proof.
  rewrite filter_app. simpl. destruct (p x); [reflexivity | apply app_nil_r].
Qed.

Lemma nullish_nonEmpty {A : Type} (l : list A) : Js.nullish (nonEmpty l) [] = l.
Proof. now destruct l. Qed.

Lemma nonEmpty_snoc {A : Type} (l : list A) (x : A) : nonEmpty (l ++ [x]) = Some (l ++ [x]).
Proof. now destruct l. Qed.

(** After one more record, every bucket holds the records of its decade
    seen so far, in their order. *)
Lemma addToBucket_get (m : Js.Map.t (list Artwork)) (seen : list Artwork) (a : Artwork) :
  (forall k, Js.Map.get k m = nonEmpty (filter (inDecade k) seen)) ->
  forall k, Js.Map.get k (addToBucket m a) = nonEmpty (filter (inDecade k) (seen ++ [a])).
Proof.
  intros Hm k. rewrite filter_snoc. unfold addToBucket, inDecade at 1.
  destruct (date_start a) as [y|]; [|apply Hm].
  destruct (decadeStart y =? k) eqn:E.
  - apply Z.eqb_eq in E; subst k.
    rewrite get_set_same, Hm, nullish_nonEmpty. symmetry. apply nonEmpty_snoc.
  - apply Z.eqb_neq in E. rewrite get_set_other by exact E. apply Hm.
Qed.

Lemma fold_addToBucket_get (arts seen : list Artwork) (m : Js.Map.t (list Artwork)) :
  (forall k, Js.Map.get k m = nonEmpty (filter (inDecade k) seen)) ->
  forall k, Js.Map.get k (fold_left addToBucket arts m)
            = nonEmpty (filter (inDecade k) (seen ++ arts)).
Proof.
  revert seen m. induction arts as [|a arts IH]; intros seen m Hm k; simpl.
  - rewrite app_nil_r. apply Hm.
  - change (a :: arts) with ([a] ++ arts). rewrite app_assoc.
    apply IH. now apply addToBucket_get.
Qed.

Lemma buckets_get (arts : list Artwork) (k : Z) :
  Js.Map.get k (buckets arts) = nonEmpty (filter (inDecade k) arts).
Proof.
  unfold buckets. now apply (fold_addToBucket_get arts []).
Qed.

Lemma buckets_NoDup (arts : list Artwork) : NoDup (Js.Map.keys (buckets arts)).
Proof.
  unfold buckets.
  assert (H : forall m : Js.Map.t (list Artwork),
             NoDup (Js.Map.keys m) -> NoDup (Js.Map.keys (fold_left addToBucket arts m))).
  { induction arts as [|a arts IH]; intros m Hm; simpl; [exact Hm|].
    apply IH. unfold addToBucket. destruct (date_start a); [|exact Hm].
    now apply set_NoDup. }
  apply H. constructor.
Qed.

(** Pushing a record on its bucket adds it once to the records held. *)
Lemma push_Permutation (m : Js.Map.t (list Artwork)) (k : Z) (a : Artwork) :
  Permutation
    (concat (Js.Map.values (Js.Map.set k (Js.nullish (Js.Map.get k m) [] ++ [a]) m)))
    (concat (Js.Map.values m) ++ [a]).
Proof.
  induction m as [|[k' v'] m IH]; simpl.
  - reflexivity.
  - destruct (k' =? k); simpl.
    + rewrite <- !app_assoc. apply Permutation_app_head, Permutation_app_comm.
    + rewrite <- app_assoc. now apply Permutation_app_head.
Qed.

Lemma buckets_Permutation (arts : list Artwork) :
  Permutation (concat (Js.Map.values (buckets arts))) (filter hasYear arts).
Proof.
  unfold buckets.
  assert (H : forall m : Js.Map.t (list Artwork),
             Permutation (concat (Js.Map.values (fold_left addToBucket arts m)))
                         (concat (Js.Map.values m) ++ filter hasYear arts)).
  { induction arts as [|a arts IH]; intros m; simpl.
    - now rewrite app_nil_r.
    - rewrite IH. unfold addToBucket, hasYear at 2.
      destruct (date_start a); [|reflexivity].
      rewrite push_Permutation, <- app_assoc. reflexivity. }
  apply (H []).
Qed.

(** The entries of the map: one per decade that has a record, holding
    the records of that decade in their order. *)
Lemma buckets_entries (arts : list Artwork) (k : Z) (items : list Artwork) :
  In (k, items) (Js.Map.entries (buckets arts)) <->
  items = filter (inDecade k) arts /\ items <> [].
Proof.
  unfold Js.Map.entries. split.
  - intros Hin. apply In_get_Some in Hin; [|apply buckets_NoDup].
    rewrite buckets_get in Hin. destruct (filter (inDecade k) arts); [discriminate|].
    injection Hin as <-. split; [reflexivity | discriminate].
  - intros [-> Hne]. apply get_Some_In. rewrite buckets_get.
    destruct (filter (inDecade k) arts); [contradiction | reflexivity].
Qed.

End BucketFacts.

(** * The bucket lists of the two variants *)

Section DecadesFacts.

Lemma toCollection_startYear (entry : Z * list Artwork) :
  startYear (toCollection entry) = fst entry.
Proof. now destruct entry. Qed.

Lemma toCollection_artworks (entry : Z * list Artwork) :
  artworks (toCollection entry) = Js.sort byDateStart (snd entry).
Proof. now destruct entry. Qed.

(** The single-page list is also the sorted list of the collections. *)
Lemma single_decades_sort (arts : list Artwork) :
  SinglePage.decades arts =
  Js.sort (fun a b => startYear a - startYear b)
    (map toCollection (Js.Map.entries (buckets arts))).
Proof.
  unfold SinglePage.decades. apply map_sort.
  intros a b. now rewrite !toCollection_startYear.
Qed.

(** The multi-page list is the single-page list without the buckets of
    fewer than 20 records. *)
Lemma multi_decades_filter (arts : list Artwork) :
  MultiPage.decades arts = filter bigEnough (SinglePage.decades arts).
Proof.
  rewrite single_decades_sort. unfold MultiPage.decades.
  symmetry. apply (filter_sort startYear).
Qed.

Lemma single_decades_In (arts : list Artwork) (c : DecadeCollection) :
  In c (SinglePage.decades arts) <->
  exists k, c = toCollection (k, filter (inDecade k) arts)
            /\ filter (inDecade k) arts <> [].
Proof.
  unfold SinglePage.decades. rewrite in_map_iff. split.
  - intros [[k items] [<- Hin]]. apply sort_In, buckets_entries in Hin.
    destruct Hin as [-> Hne]. now exists k.
  - intros [k [-> Hne]]. exists (k, filter (inDecade k) arts).
    split; [reflexivity|]. now apply sort_In, buckets_entries.
Qed.

Lemma single_decades_startYears (arts : list Artwork) :
  Permutation (map startYear (SinglePage.decades arts)) (Js.Map.keys (buckets arts)).
Proof.
  unfold SinglePage.decades, Js.Map.keys. rewrite map_map.
  rewrite (map_ext _ fst) by apply toCollection_startYear.
  apply Permutation_map, sort_Permutation.
Qed.

Lemma single_decades_NoDup (arts : list Artwork) :
  NoDup (map startYear (SinglePage.decades arts)).
Proof.
  eapply Permutation_NoDup; [symmetry; apply single_decades_startYears|].
  apply buckets_NoDup.
Qed.

Lemma concat_Permutation {A : Type} (l1 l2 : list (list A)) :
  Permutation l1 l2 -> Permutation (concat l1) (concat l2).
Proof.
  induction 1 as [|x l1 l2 _ IH|x y l|l1 l2 l3 _ IH1 _ IH2]; simpl.
  - reflexivity.
  - now apply Permutation_app_head.
  - rewrite !app_assoc. apply Permutation_app_tail, Permutation_app_comm.
  - now transitivity (concat l2).
Qed.

Lemma concat_sorted_Permutation (l : list (Z * list Artwork)) :
  Permutation (concat (map artworks (map toCollection l))) (concat (map snd l)).
Proof.
  induction l as [|e l IH]; simpl.
  - reflexivity.
  - rewrite toCollection_artworks.
    apply Permutation_app; [apply sort_Permutation | exact IH].
Qed.

(** The buckets of the single-page list hold the records that have a
    year, each as often as the record set does. *)
Lemma single_decades_Permutation (arts : list Artwork) :
  Permutation (concat (map artworks (SinglePage.decades arts))) (filter hasYear arts).
Proof.
  unfold SinglePage.decades. rewrite concat_sorted_Permutation.
  rewrite <- buckets_Permutation. unfold Js.Map.values.
  apply concat_Permutation, Permutation_map, sort_Permutation.
Qed.

(** The members of a bucket are the records of its decade. *)
Lemma bucket_members (arts : list Artwork) (c : DecadeCollection) (r : Artwork) :
  In c (SinglePage.decades arts) ->
  (In r (artworks c) <-> In r arts /\ inDecade (startYear c) r = true).
Proof.
  intros Hc. apply single_decades_In in Hc. destruct Hc as [k [-> _]]. simpl.
  rewrite sort_In. apply filter_In.
Qed.

Lemma bucket_size (arts : list Artwork) (c : DecadeCollection) :
  In c (SinglePage.decades arts) ->
  length (artworks c) = length (filter (inDecade (startYear c)) arts).
Proof.
  intros Hc. apply single_decades_In in Hc. destruct Hc as [k [-> _]]. simpl.
  apply Permutation_length, sort_Permutation.
Qed.

Lemma inDecade_year (k : Z) (r : Artwork) :
  inDecade k r = true <-> exists y, date_start r = Some y /\ decadeStart y = k.
Proof.
  unfold inDecade. destruct (date_start r) as [y|].
  - rewrite Z.eqb_eq. split; [now exists y | now intros [? [[= <-] ?]]].
  - split; [discriminate | now intros [? [? _]]].
Qed.

(** The bucket of a record that has a year. *)
Lemma bucket_of_record (arts : list Artwork) (r : Artwork) (y : Z) :
  In r arts -> date_start r = Some y ->
  In (toCollection (decadeStart y, filter (inDecade (decadeStart y)) arts))
     (SinglePage.decades arts).
Proof.
  intros Hin Hy. apply single_decades_In. exists (decadeStart y).
  split; [reflexivity|]. intros Hnil.
  assert (H : In r (filter (inDecade (decadeStart y)) arts)).
  { apply filter_In. split; [exact Hin|]. apply inDecade_year. now exists y. }
  now rewrite Hnil in H.
Qed.

(** Positions: in a list without two equal keys, a key names one
    position. *)
Lemma nth_error_key_inj {A : Type} (key : A -> Z) (l : list A) (i j : nat) (a b : A) :
  NoDup (map key l) ->
  nth_error l i = Some a -> nth_error l j = Some b -> key a = key b -> i = j.
Proof.
  intros Hnd Hi Hj Hk.
  apply (proj1 (NoDup_nth_error (map key l)) Hnd).
  - rewrite length_map. apply nth_error_Some. now rewrite Hi.
  - rewrite (map_nth_error key _ _ Hi), (map_nth_error key _ _ Hj). now rewrite Hk.
Qed.

Lemma filter_NoDup_map {A : Type} (key : A -> Z) (p : A -> bool) (l : list A) :
  NoDup (map key l) -> NoDup (map key (filter p l)).
Proof.
  induction l as [|x l IH]; simpl; intros Hnd; [constructor|].
  inversion Hnd as [|? ? Hnotin Hnd']; subst.
  destruct (p x); simpl; [|now apply IH].
  constructor; [|now apply IH].
  intros Hin. apply Hnotin. apply in_map_iff in Hin.
  destruct Hin as [z [Hz Hin]]. apply filter_In in Hin.
  rewrite <- Hz. apply in_map. tauto.
Qed.

(** A record found in a bucket of a list whose buckets have distinct
    start years, every bucket holding records of its own decade only, is
    in exactly one bucket. *)
Lemma exactly_one_bucket (ds : list DecadeCollection) (c : DecadeCollection) (r : Artwork) :
  NoDup (map startYear ds) ->
  (forall c', In c' ds -> In r (artworks c') -> startYear c' = startYear c) ->
  In c ds -> In r (artworks c) -> inExactlyOneBucket r ds.
Proof.
  intros Hnd Hsame Hc Hr. destruct (In_nth_error _ _ Hc) as [i Hi].
  exists i, c. repeat split; [exact Hi | exact Hr |].
  intros j c' Hj Hr'. apply (nth_error_key_inj startYear ds j i c' c Hnd Hj Hi).
  apply Hsame; [now apply nth_error_In in Hj | exact Hr'].
Qed.

End DecadesFacts.

(** * Claims on the bucketizer *)

Lemma StronglySorted_weaken {A : Type} (R R' : A -> A -> Prop) (P : A -> Prop) (l : list A) :
  (forall a b, P a -> P b -> R a b -> R' a b) ->
  Forall P l -> StronglySorted R l -> StronglySorted R' l.
Proof.
  intros HR HP Hs. induction Hs as [|x l Hs IH Hx].
  - constructor.
  - inversion HP as [|? ? Px Pl]; subst. constructor; [now apply IH|].
    rewrite Forall_forall in *. intros z Hz. apply HR; auto.
Qed.

Lemma decadeStart_floor (y : Z) :
  decadeStart y mod 10 = 0 /\ decadeStart y <= y < decadeStart y + 10.
Proof.
  unfold decadeStart. split.
  - apply Z.mod_mul. lia.
  - pose proof (Z.mod_pos_bound y 10). pose proof (Z.div_mod y 10). lia.
Qed.

Lemma multi_decades_In (arts : list Artwork) (c : DecadeCollection) :
  In c (MultiPage.decades arts) <->
  In c (SinglePage.decades arts) /\ (20 <= length (artworks c))%nat.
Proof.
  rewrite multi_decades_filter, filter_In. unfold bigEnough.
  now rewrite Nat.leb_le.
Qed.

Lemma multi_decades_NoDup (arts : list Artwork) :
  NoDup (map startYear (MultiPage.decades arts)).
Proof.
  rewrite multi_decades_filter. apply filter_NoDup_map, single_decades_NoDup.
Qed.

Lemma bucket_year (arts : list Artwork) (c : DecadeCollection) (r : Artwork) :
  In c (SinglePage.decades arts) -> In r (artworks c) ->
  exists y, date_start r = Some y /\ startYear c = decadeStart y.
Proof.
  intros Hc Hr. apply (bucket_members arts c r Hc) in Hr.
  destruct Hr as [_ Hr]. apply inDecade_year in Hr.
  destruct Hr as [y [Hy Hk]]. now exists y.
Qed.

Lemma bucket_same_year (arts : list Artwork) (c : DecadeCollection) (r : Artwork) (y : Z) :
  date_start r = Some y ->
  In c (SinglePage.decades arts) -> In r (artworks c) -> startYear c = decadeStart y.
Proof.
  intros Hy Hc Hr. destruct (bucket_year arts c r Hc Hr) as [y' [Hy' ->]]. congruence.
Qed.

(** C1, as amended.  In the single-page variant every record of the
    record set that has a start year is a member of exactly one bucket,
    whose start year is [floor(date_start / 10) * 10], and the buckets
    together hold the records as often as the record set does.  In the
    multi-page variant this holds of the records whose decade has at
    least 20 records; the others are in no bucket.  In both variants a
    member of a bucket has a start year [y] with
    [floor(y / 10) * 10] the start year of the bucket, for negative
    years too ([decadeStart] is the multiple of ten with
    [decadeStart y <= y < decadeStart y + 10]). *)
Theorem decades_partition (arts : list Artwork) :
  (forall r y, In r arts -> date_start r = Some y ->
     inExactlyOneBucket r (SinglePage.decades arts) /\
     exists c, In c (SinglePage.decades arts) /\ In r (artworks c)
               /\ startYear c = y / 10 * 10)
  /\ Permutation (concat (map artworks (SinglePage.decades arts))) (filter hasYear arts)
  /\ (forall r y, In r arts -> date_start r = Some y ->
        (20 <= length (filter (inDecade (decadeStart y)) arts))%nat ->
        inExactlyOneBucket r (MultiPage.decades arts) /\
        exists c, In c (MultiPage.decades arts) /\ In r (artworks c)
                  /\ startYear c = y / 10 * 10)
  /\ (forall r y, In r arts -> date_start r = Some y ->
        (length (filter (inDecade (decadeStart y)) arts) < 20)%nat ->
        forall c, In c (MultiPage.decades arts) -> ~ In r (artworks c))
  /\ (forall c r,
        In c (SinglePage.decades arts) \/ In c (MultiPage.decades arts) ->
        In r (artworks c) ->
        exists y, date_start r = Some y /\ startYear c = y / 10 * 10)
  /\ (forall y, decadeStart y mod 10 = 0 /\ decadeStart y <= y < decadeStart y + 10).
Proof.
  assert (Hmember : forall r y, In r arts -> date_start r = Some y ->
            In r (artworks (toCollection
                    (decadeStart y, filter (inDecade (decadeStart y)) arts)))).
  { intros r y Hin Hy. simpl. apply sort_In, filter_In. split; [exact Hin|].
    apply inDecade_year. now exists y. }
  assert (Hsize : forall y,
            length (artworks (toCollection
                      (decadeStart y, filter (inDecade (decadeStart y)) arts)))
            = length (filter (inDecade (decadeStart y)) arts)).
  { intros y. simpl. apply Permutation_length, sort_Permutation. }
  split; [|split; [|split; [|split; [|split]]]].
  - intros r y Hin Hy. pose proof (bucket_of_record arts r y Hin Hy) as Hc. split.
    + eapply exactly_one_bucket;
        [apply single_decades_NoDup | | exact Hc | now apply Hmember].
      intros c' Hc' Hr'. now rewrite (bucket_same_year arts c' r y Hy Hc' Hr').
    + eexists. split; [exact Hc|]. split; [now apply Hmember | reflexivity].
  - apply single_decades_Permutation.
  - intros r y Hin Hy Hbig.
    assert (Hc : In (toCollection (decadeStart y, filter (inDecade (decadeStart y)) arts))
                    (MultiPage.decades arts)).
    { apply multi_decades_In. split; [now apply (bucket_of_record arts r y)|].
      now rewrite Hsize. }
    split.
    + eapply exactly_one_bucket;
        [apply multi_decades_NoDup | | exact Hc | now apply Hmember].
      intros c' Hc' Hr'. apply multi_decades_In in Hc'. destruct Hc' as [Hc' _].
      now rewrite (bucket_same_year arts c' r y Hy Hc' Hr').
    + eexists. split; [exact Hc|]. split; [now apply Hmember | reflexivity].
  - intros r y Hin Hy Hsmall c Hc Hr.
    apply multi_decades_In in Hc. destruct Hc as [Hc Hbig].
    rewrite (bucket_size arts c Hc) in Hbig.
    rewrite (bucket_same_year arts c r y Hy Hc Hr) in Hbig. lia.
  - intros c r Hc Hr.
    destruct Hc as [Hc|Hc]; [|apply multi_decades_In in Hc; destruct Hc as [Hc _]];
      now apply (bucket_year arts c r).
  - apply decadeStart_floor.
Qed.

(** The amended C1 at a record set of one record (single-page variant)
    and at twenty copies of a record (multi-page variant). *)
Lemma decades_partition_witness :
  inExactlyOneBucket (artwork 1 "A" (Some 1923))
    (SinglePage.decades [artwork 1 "A" (Some 1923)])
  /\ inExactlyOneBucket (artwork 1 "A" (Some 1923))
       (MultiPage.decades (repeat (artwork 1 "A" (Some 1923)) 20)).
Proof.
  split.
  - apply (proj1 (decades_partition [artwork 1 "A" (Some 1923)])
             (artwork 1 "A" (Some 1923)) 1923).
    + left. reflexivity.
    + reflexivity.
  - apply (proj1 (proj2 (proj2 (decades_partition (repeat (artwork 1 "A" (Some 1923)) 20))))
             (artwork 1 "A" (Some 1923)) 1923).
    + left. reflexivity.
    + reflexivity.
    + vm_compute. lia.
Defined.

(** C1 as stated fails in the multi-page variant: a record that survives
    the aggregator alone in its decade is in no bucket. *)
Lemma decades_partition_counterexample :
  In (artwork 1 "A" (Some 1923)) (MultiPage.filtered [[artwork 1 "A" (Some 1923)]])
  /\ ~ inExactlyOneBucket (artwork 1 "A" (Some 1923))
         (MultiPage.decades (MultiPage.filtered [[artwork 1 "A" (Some 1923)]])).
Proof.
  split.
  - left. reflexivity.
  - intros [i [c [Hnth _]]]. vm_compute in Hnth. now destruct i.
Qed.

Lemma bucket_ascending (items : list Artwork) :
  Forall (fun r => hasYear r = true) items ->
  StronglySorted yearLe (Js.sort byDateStart items).
Proof.
  intros Hitems.
  apply (StronglySorted_weaken
           (fun a b => Js.nullish (date_start a) 0 <= Js.nullish (date_start b) 0)
           yearLe (fun r => hasYear r = true)).
  - unfold hasYear, yearLe. intros a b Ha Hb Hab.
    destruct (date_start a) as [ya|]; [|discriminate].
    destruct (date_start b) as [yb|]; [|discriminate].
    now exists ya, yb.
  - rewrite Forall_forall in *. intros r Hr. apply Hitems. now apply sort_In in Hr.
  - apply (sort_ascending (fun r => Js.nullish (date_start r) 0)).
Qed.

Lemma inDecade_hasYear (k : Z) (r : Artwork) : inDecade k r = true -> hasYear r = true.
Proof. unfold inDecade, hasYear. now destruct (date_start r). Qed.

(** C2.  In both variants the bucket list is ascending by start year,
    and the records of every bucket are ascending by [date_start]. *)
Theorem decades_sorted (arts : list Artwork) :
  ascending startYear (MultiPage.decades arts)
  /\ ascending startYear (SinglePage.decades arts)
  /\ Forall (fun c => StronglySorted yearLe (artworks c)) (MultiPage.decades arts)
  /\ Forall (fun c => StronglySorted yearLe (artworks c)) (SinglePage.decades arts).
Proof.
  assert (Hsingle : Forall (fun c => StronglySorted yearLe (artworks c))
                           (SinglePage.decades arts)).
  { apply Forall_forall. intros c Hc. apply single_decades_In in Hc.
    destruct Hc as [k [-> _]]. simpl. apply bucket_ascending.
    apply Forall_forall. intros r Hr. apply filter_In in Hr.
    now apply (inDecade_hasYear k). }
  split; [|split; [|split]].
  - unfold MultiPage.decades. apply (sort_ascending startYear).
  - rewrite single_decades_sort. apply (sort_ascending startYear).
  - rewrite multi_decades_filter. rewrite Forall_forall in *.
    intros c Hc. apply filter_In in Hc. now apply Hsingle.
  - exact Hsingle.
Qed.

(** C9.  Every bucket of the multi-page list has at least 20 records; a
    decade with fewer than 20 records has no bucket there and a decade
    with 20 or more has one; the list is the single-page list without
    the buckets of fewer than 20 records.  The single-page list has a
    bucket for every decade that has a record, of whatever size. *)
Theorem minimum_bucket_size (arts : list Artwork) :
  Forall (fun c => (20 <= length (artworks c))%nat) (MultiPage.decades arts)
  /\ (forall k, (length (filter (inDecade k) arts) < 20)%nat ->
                ~ In k (map startYear (MultiPage.decades arts)))
  /\ (forall k, (20 <= length (filter (inDecade k) arts))%nat ->
                In k (map startYear (MultiPage.decades arts)))
  /\ MultiPage.decades arts =
     filter (fun c => (20 <=? length (artworks c))%nat) (SinglePage.decades arts)
  /\ (forall k, filter (inDecade k) arts <> [] ->
        exists c, In c (SinglePage.decades arts) /\ startYear c = k
                  /\ length (artworks c) = length (filter (inDecade k) arts)).
Proof.
  split; [|split; [|split; [|split]]].
  - apply Forall_forall. intros c Hc. now apply multi_decades_In in Hc.
  - intros k Hsmall Hin. apply in_map_iff in Hin. destruct Hin as [c [<- Hc]].
    apply multi_decades_In in Hc. destruct Hc as [Hc Hbig].
    rewrite (bucket_size arts c Hc) in Hbig. lia.
  - intros k Hbig. apply in_map_iff.
    exists (toCollection (k, filter (inDecade k) arts)). split; [reflexivity|].
    apply multi_decades_In. split.
    + apply single_decades_In. exists k. split; [reflexivity|].
      intros Hnil. rewrite Hnil in Hbig. simpl in Hbig. lia.
    + simpl. now rewrite (Permutation_length (sort_Permutation _ _)).
  - apply multi_decades_filter.
  - intros k Hne. exists (toCollection (k, filter (inDecade k) arts)).
    split; [|split].
    + apply single_decades_In. now exists k.
    + reflexivity.
    + simpl. apply Permutation_length, sort_Permutation.
Qed.

(** C9 at a record set of one record: no bucket in the multi-page
    variant, a bucket of one record in the single-page variant. *)
Lemma minimum_bucket_size_witness :
  ~ In 1920 (map startYear (MultiPage.decades [artwork 1 "A" (Some 1923)]))
  /\ exists c, In c (SinglePage.decades [artwork 1 "A" (Some 1923)])
               /\ startYear c = 1920 /\ length (artworks c) = 1%nat.
Proof.
  split.
  - apply (proj1 (proj2 (minimum_bucket_size [artwork 1 "A" (Some 1923)])) 1920).
    vm_compute. lia.
  - apply (proj2 (proj2 (proj2 (proj2 (minimum_bucket_size [artwork 1 "A" (Some 1923)])))) 1920).
    vm_compute. discriminate.
Defined.

(** * The aggregator *)

Section AggregatorFacts.

Lemma filter_implied {A : Type} (p q : A -> bool) (l : list A) :
  (forall x, p x = true -> q x = true) -> filter p (filter q l) = filter p l.
Proof.
  intros H. induction l as [|x l IH]; simpl; [reflexivity|].
  destruct (q x) eqn:Q; simpl.
  - now rewrite IH.
  - destruct (p x) eqn:P; [|exact IH]. apply H in P. congruence.
Qed.

Lemma find_snoc {A : Type} (p : A -> bool) (l : list A) (x : A) :
  find p (l ++ [x]) =
  match find p l with
  | Some y => Some y
  | None => if p x then Some x else None
  end.
Proof.
  induction l as [|y l IH]; simpl.
  - reflexivity.
  - now destruct (p y).
Qed.

Lemma dedupeStep_get (m : Js.Map.t Artwork) (seen : list Artwork) (a : Artwork) :
  (forall k, Js.Map.get k m = firstWithId k seen) ->
  forall k, Js.Map.get k (MultiPage.dedupeStep m a) = firstWithId k (seen ++ [a]).
Proof.
  intros Hm k. unfold firstWithId. rewrite find_snoc.
  unfold MultiPage.dedupeStep, Js.truthy_number, Js.Map.has.
  pose proof (Hm k) as Hk. pose proof (Hm (id a)) as Ha. unfold firstWithId in Hk, Ha.
  destruct (k =? 0) eqn:K0.
  - apply Z.eqb_eq in K0; subst k.
    destruct (id a =? 0) eqn:A0; simpl; [exact Hk|].
    destruct (Js.Map.get (id a) m); simpl; [exact Hk|].
    apply Z.eqb_neq in A0. now rewrite get_set_other.
  - destruct (id a =? k) eqn:E.
    + apply Z.eqb_eq in E; subst k. rewrite K0 in *. simpl.
      rewrite Ha. destruct (find _ seen) eqn:F; [now rewrite <- Ha at 1|].
      simpl. apply get_set_same.
    + assert (Hsame : Js.Map.get k m
                      = match find (fun x => id x =? k) seen with
                        | Some y => Some y
                        | None => None
                        end).
      { rewrite Hk. now destruct (find _ seen). }
      destruct (negb (id a =? 0) && negb match Js.Map.get (id a) m with
                                          | Some _ => true
                                          | None => false
                                          end); [|exact Hsame].
      apply Z.eqb_neq in E. now rewrite get_set_other.
Qed.

Lemma fold_dedupeStep_get (l seen : list Artwork) (m : Js.Map.t Artwork) :
  (forall k, Js.Map.get k m = firstWithId k seen) ->
  forall k, Js.Map.get k (fold_left MultiPage.dedupeStep l m) = firstWithId k (seen ++ l).
Proof.
  revert seen m. induction l as [|a l IH]; intros seen m Hm k; simpl.
  - rewrite app_nil_r. apply Hm.
  - change (a :: l) with ([a] ++ l). rewrite app_assoc.
    apply IH. now apply dedupeStep_get.
Qed.

(** What the map holds under an identifier after the merge: the first
    record with that identifier. *)
Lemma deduped_get (pages : list (list Artwork)) (k : Z) :
  Js.Map.get k (MultiPage.deduped pages) = firstWithId k (MultiPage.merged pages).
Proof.
  unfold MultiPage.deduped.
  apply (fold_dedupeStep_get (MultiPage.merged pages) [] Js.Map.empty).
  intros k'. unfold firstWithId. simpl. now destruct (k' =? 0).
Qed.

Lemma deduped_NoDup (pages : list (list Artwork)) :
  NoDup (Js.Map.keys (MultiPage.deduped pages)).
Proof.
  unfold MultiPage.deduped. generalize (MultiPage.merged pages) as l.
  assert (H : forall (l : list Artwork) (m : Js.Map.t Artwork),
             NoDup (Js.Map.keys m) ->
             NoDup (Js.Map.keys (fold_left MultiPage.dedupeStep l m))).
  { induction l as [|a l IH]; intros m Hm; simpl; [exact Hm|].
    apply IH. unfold MultiPage.dedupeStep.
    destruct (_ && _); [now apply set_NoDup | exact Hm]. }
  intros l. apply H. constructor.
Qed.

(** Every entry is filed under the identifier of its record. *)
Lemma deduped_keys (pages : list (list Artwork)) :
  Js.Map.keys (MultiPage.deduped pages) = map id (Js.Map.values (MultiPage.deduped pages)).
Proof.
  unfold MultiPage.deduped. generalize (MultiPage.merged pages) as l.
  assert (H : forall (l : list Artwork) (m : Js.Map.t Artwork),
             Js.Map.keys m = map id (Js.Map.values m) ->
             Js.Map.keys (fold_left MultiPage.dedupeStep l m)
             = map id (Js.Map.values (fold_left MultiPage.dedupeStep l m))).
  { induction l as [|a l IH]; intros m Hm; simpl; [exact Hm|].
    apply IH. unfold MultiPage.dedupeStep, Js.Map.has.
    destruct (Js.truthy_number (id a)); simpl; [|exact Hm].
    destruct (Js.Map.get (id a) m) eqn:G; simpl; [exact Hm|].
    rewrite (set_absent _ _ _ G). unfold Js.Map.keys, Js.Map.values in *.
    rewrite !map_app. simpl. now rewrite Hm. }
  intros l. now apply H.
Qed.

Lemma Subsequence_snoc {A : Type} (l1 l2 : list A) (x : A) :
  Subsequence l1 l2 -> Subsequence (l1 ++ [x]) (l2 ++ [x]).
Proof.
  induction 1; simpl; [apply sub_keep, sub_nil | now apply sub_skip | now apply sub_keep].
Qed.

Lemma Subsequence_skip_last {A : Type} (l1 l2 : list A) (x : A) :
  Subsequence l1 l2 -> Subsequence l1 (l2 ++ [x]).
Proof.
  induction 1; simpl; [apply sub_skip, sub_nil | now apply sub_skip | now apply sub_keep].
Qed.

Lemma Subsequence_trans {A : Type} (l1 l2 l3 : list A) :
  Subsequence l1 l2 -> Subsequence l2 l3 -> Subsequence l1 l3.
Proof.
  intros H12 H23. revert l1 H12.
  induction H23 as [|x l2 l3 _ IH|x l2 l3 _ IH]; intros l1 H12.
  - exact H12.
  - apply sub_skip. now apply IH.
  - inversion H12; subst; [apply sub_skip | apply sub_keep]; now apply IH.
Qed.

Lemma Subsequence_filter {A : Type} (p : A -> bool) (l : list A) :
  Subsequence (filter p l) l.
Proof.
  induction l as [|x l IH]; simpl; [apply sub_nil|].
  destruct (p x); [now apply sub_keep | now apply sub_skip].
Qed.

(** The values of the map follow the merge order. *)
Lemma deduped_Subsequence (pages : list (list Artwork)) :
  Subsequence (Js.Map.values (MultiPage.deduped pages)) (MultiPage.merged pages).
Proof.
  unfold MultiPage.deduped. generalize (MultiPage.merged pages) as l.
  assert (H : forall (l seen : list Artwork) (m : Js.Map.t Artwork),
             Subsequence (Js.Map.values m) seen ->
             Subsequence (Js.Map.values (fold_left MultiPage.dedupeStep l m)) (seen ++ l)).
  { induction l as [|a l IH]; intros seen m Hm; simpl.
    - now rewrite app_nil_r.
    - change (a :: l) with ([a] ++ l). rewrite app_assoc. apply IH.
      unfold MultiPage.dedupeStep, Js.Map.has.
      destruct (Js.truthy_number (id a)); simpl; [|now apply Subsequence_skip_last].
      destruct (Js.Map.get (id a) m) eqn:G; simpl; [now apply Subsequence_skip_last|].
      rewrite (set_absent _ _ _ G). unfold Js.Map.values in *.
      rewrite map_app. simpl. now apply Subsequence_snoc. }
  intros l. apply (H l [] Js.Map.empty). apply sub_nil.
Qed.

(** The records the map holds: the first records of their identifiers,
    the identifier 0 apart. *)
Lemma deduped_values_In (pages : list (list Artwork)) (r : Artwork) :
  In r (Js.Map.values (MultiPage.deduped pages)) <->
  id r <> 0 /\ find (fun x => id x =? id r) (MultiPage.merged pages) = Some r.
Proof.
  split.
  - intros Hin. unfold Js.Map.values in Hin. apply in_map_iff in Hin.
    destruct Hin as [[k v] [Hv Hin]]. simpl in Hv. subst v.
    apply In_get_Some in Hin; [|apply deduped_NoDup].
    rewrite deduped_get in Hin. unfold firstWithId in Hin.
    destruct (k =? 0) eqn:K0; [discriminate|].
    pose proof (find_some _ _ Hin) as [_ Hid]. apply Z.eqb_eq in Hid. subst k.
    apply Z.eqb_neq in K0. now split.
  - intros [Hid Hfind]. unfold Js.Map.values. apply in_map_iff.
    exists (id r, r). split; [reflexivity|]. apply get_Some_In.
    rewrite deduped_get. unfold firstWithId.
    apply Z.eqb_neq in Hid. now rewrite Hid.
Qed.

Lemma has_set {V : Type} (m : Js.Map.t V) (k k' : Z) (v : V) :
  Js.Map.has k' (Js.Map.set k v m) = (k =? k') || Js.Map.has k' m.
Proof.
  unfold Js.Map.has. destruct (k =? k') eqn:E.
  - apply Z.eqb_eq in E. subst k'. now rewrite get_set_same.
  - apply Z.eqb_neq in E. now rewrite (get_set_other m k k' v E).
Qed.

Lemma filter_both {A : Type} (p q : A -> bool) (l : list A) :
  filter p (filter q l) = filter (fun x => p x && q x) l.
Proof.
  induction l as [|x l IH]; simpl; [reflexivity|].
  destruct (q x) eqn:Q; simpl; rewrite ?andb_true_r, ?andb_false_r.
  - destruct (p x); now rewrite IH.
  - exact IH.
Qed.

(** The code's map against the words of the specification: the fold
    appends to the map the first occurrences of the identifiers that
    are truthy and not in the map yet. *)
Lemma fold_dedupeStep_firstOccurrences (l : list Artwork) (m : Js.Map.t Artwork) :
  Js.Map.values (fold_left MultiPage.dedupeStep l m) =
  Js.Map.values m
  ++ filter (fun r => Js.truthy_number (id r) && negb (Js.Map.has (id r) m))
            (firstOccurrences l).
Proof.
  revert m. induction l as [|a l IH]; intros m; simpl.
  - now rewrite app_nil_r.
  - rewrite IH. unfold MultiPage.dedupeStep.
    destruct (Js.truthy_number (id a) && negb (Js.Map.has (id a) m)) eqn:K.
    + assert (Hget : Js.Map.get (id a) m = None).
      { apply andb_true_iff in K. destruct K as [_ K]. unfold Js.Map.has in K.
        now destruct (Js.Map.get (id a) m). }
      rewrite (set_absent m (id a) a Hget) at 1.
      unfold Js.Map.values at 1. rewrite map_app, <- app_assoc. simpl.
      f_equal. f_equal. rewrite filter_both. apply filter_ext. intros r.
      rewrite has_set, negb_orb, (Z.eqb_sym (id a) (id r)).
      destruct (Js.truthy_number (id r)), (id r =? id a), (Js.Map.has (id r) m); reflexivity.
    + f_equal. symmetry. apply filter_implied. intros r Hr.
      apply andb_true_iff in Hr. destruct Hr as [Hid Hhas].
      apply negb_true_iff, Z.eqb_neq. intros Heq. rewrite Heq in *.
      rewrite Hid, Hhas in K. discriminate.
Qed.

Lemma filtered_firstOccurrences (pages : list (list Artwork)) :
  MultiPage.filtered pages =
  filter retained
    (filter (fun r => Js.truthy_number (id r)) (firstOccurrences (concat pages))).
Proof.
  unfold MultiPage.filtered, MultiPage.deduped, MultiPage.merged.
  rewrite fold_dedupeStep_firstOccurrences. simpl. f_equal.
  apply filter_ext. intros r. apply andb_true_r.
Qed.

End AggregatorFacts.

(** * Claims on the aggregator *)

Lemma filtered_In (pages : list (list Artwork)) (r : Artwork) :
  In r (MultiPage.filtered pages) <->
  (id r <> 0 /\ find (fun x => id x =? id r) (MultiPage.merged pages) = Some r)
  /\ retained r = true.
Proof.
  unfold MultiPage.filtered. now rewrite filter_In, deduped_values_In.
Qed.

Lemma retained_spec (r : Artwork) :
  retained r = true <->
  (exists y, date_start r = Some y /\ y <> 0) /\ title r <> EmptyString.
Proof.
  unfold retained, Js.truthy_opt, Js.truthy_number, Js.truthy_string.
  rewrite andb_true_iff.
  destruct (date_start r) as [y|]; rewrite ?negb_true_iff, String.eqb_neq.
  - rewrite Z.eqb_neq. split.
    + intros [Hy Ht]. split; [now exists y | exact Ht].
    + intros [[y' [[= <-] Hy]] Ht]. now split.
  - split; [now intros [? _] | now intros [[y [? _]] _]].
Qed.

(** C4, as amended.  The output of the multi-page aggregator is what
    the specification words give: of the records of the pages put end to
    end that share an identifier only the first can stay, in the order
    of the pages; that first occurrence stays exactly when its
    identifier is not 0 and it passes the retention filter.  So no two
    records of the output share an identifier, a record is in the output
    if and only if it is the first record of its identifier across the
    pages, its identifier is not 0 and it is retained, and the output
    follows the order of the pages. *)
Theorem dedupe_keeps_first (pages : list (list Artwork)) :
  MultiPage.filtered pages
  = filter retained
      (filter (fun r => negb (id r =? 0)) (firstOccurrences (concat pages)))
  /\ NoDup (map id (MultiPage.filtered pages))
  /\ (forall r, In r (MultiPage.filtered pages) <->
                id r <> 0
                /\ find (fun x => id x =? id r) (concat pages) = Some r
                /\ retained r = true)
  /\ Subsequence (MultiPage.filtered pages) (concat pages).
Proof.
  split; [|split; [|split]].
  - apply filtered_firstOccurrences.
  - unfold MultiPage.filtered. apply filter_NoDup_map.
    rewrite <- deduped_keys. apply deduped_NoDup.
  - intros r. rewrite filtered_In. unfold MultiPage.merged. tauto.
  - apply (Subsequence_trans _ (Js.Map.values (MultiPage.deduped pages))).
    + apply Subsequence_filter.
    + apply deduped_Subsequence.
Qed.

(** The amended C4 on two pages that share the identifier 1: the record
    of the first page is kept, the one of the second page is not, and
    the output is in page order. *)
Lemma dedupe_keeps_first_witness :
  In (artwork 1 "A" (Some 1923)) (MultiPage.filtered twoPages)
  /\ ~ In (artwork 1 "A-dup" (Some 1923)) (MultiPage.filtered twoPages)
  /\ MultiPage.filtered twoPages
     = [artwork 1 "A" (Some 1923); artwork 2 "B" (Some 1950); artwork 3 "C" (Some 1931)].
Proof.
  split; [|split].
  - apply (proj1 (proj2 (proj2 (dedupe_keeps_first twoPages)))).
    split; [simpl; lia|]. split; reflexivity.
  - intros Hin.
    apply (proj1 (proj2 (proj2 (dedupe_keeps_first twoPages)))) in Hin.
    destruct Hin as [_ [Hfind _]]. vm_compute in Hfind. discriminate Hfind.
  - rewrite (proj1 (dedupe_keeps_first twoPages)). reflexivity.
Defined.

(** C4 as stated fails: of two records that share the identifier 5 the
    first has no title, and of two that share the identifier 0 both are
    complete; in each case neither record is kept, not the first
    either. *)
Lemma dedupe_keeps_first_counterexample :
  MultiPage.filtered [[artwork 5 EmptyString (Some 1900)]; [artwork 5 "E" (Some 1900)]] = []
  /\ MultiPage.filtered [[artwork 0 "Z" (Some 1900)]; [artwork 0 "Z2" (Some 1901)]] = [].
Proof.
  split; reflexivity.
Qed.

(** C5.  A record whose title is the empty string or that has no start
    year is in the output record set of neither variant. *)
Theorem filter_discards_incomplete (r : Artwork) :
  title r = EmptyString \/ date_start r = None ->
  (forall pages, ~ In r (MultiPage.filtered pages))
  /\ (forall page, ~ In r (SinglePage.filtered page)).
Proof.
  intros Hr.
  assert (Hret : retained r = false).
  { apply not_true_is_false. intros H. apply retained_spec in H.
    destruct H as [[y [Hy _]] Ht]. destruct Hr as [Hr|Hr]; congruence. }
  split.
  - intros pages Hin. apply filtered_In in Hin. destruct Hin as [_ H]. congruence.
  - intros page Hin. unfold SinglePage.filtered in Hin.
    apply filter_In in Hin. destruct Hin as [_ H]. congruence.
Qed.

(** C5 at the second record of the scenario, whose title is empty. *)
Lemma filter_discards_incomplete_witness :
  ~ In (artwork 2 EmptyString (Some 1925)) (MultiPage.filtered [scenarioPage])
  /\ ~ In (artwork 2 EmptyString (Some 1925)) (SinglePage.filtered scenarioPage).
Proof.
  destruct (filter_discards_incomplete (artwork 2 EmptyString (Some 1925))) as [HA HB].
  - left. reflexivity.
  - split; [apply HA | apply HB].
Defined.

(** C10.  A record whose start year is the number 0 fails the retention
    filter and is in the output of neither variant; a record whose
    identifier is 0 is not put in the map of the multi-page variant,
    whatever its title and start year, and so is not in its output. *)
Theorem zero_is_falsy (r : Artwork) :
  (date_start r = Some 0 ->
     retained r = false
     /\ (forall pages, ~ In r (MultiPage.filtered pages))
     /\ (forall page, ~ In r (SinglePage.filtered page)))
  /\ (id r = 0 ->
        forall pages, ~ In r (Js.Map.values (MultiPage.deduped pages))
                      /\ ~ In r (MultiPage.filtered pages)).
Proof.
  split.
  - intros Hy.
    assert (Hret : retained r = false).
    { unfold retained. now rewrite Hy. }
    split; [exact Hret|]. split.
    + intros pages Hin. apply filtered_In in Hin. destruct Hin as [_ H]. congruence.
    + intros page Hin. unfold SinglePage.filtered in Hin.
      apply filter_In in Hin. destruct Hin as [_ H]. congruence.
  - intros Hid pages. split.
    + intros Hin. apply deduped_values_In in Hin. tauto.
    + intros Hin. apply filtered_In in Hin. tauto.
Qed.

(** C10 at a record of year 0 and at a record of identifier 0, each
    alone on its page and complete otherwise. *)
Lemma zero_is_falsy_witness :
  ~ In (artwork 7 "T" (Some 0)) (SinglePage.filtered [artwork 7 "T" (Some 0)])
  /\ ~ In (artwork 0 "T" (Some 1900)) (MultiPage.filtered [[artwork 0 "T" (Some 1900)]]).
Proof.
  split.
  - apply (proj1 (zero_is_falsy (artwork 7 "T" (Some 0)))). reflexivity.
  - apply (proj2 (zero_is_falsy (artwork 0 "T" (Some 1900)))). reflexivity.
Defined.

(** * The load *)

Section LoadFacts.

Lemma fetchArtworkPage_promise (net : MultiPage.Network) (page : Z) (w : MultiPage.World) :
  MultiPage.fetchArtworkPage net page w =
  (pagePromise net page,
   {| MultiPage.state := MultiPage.state w;
      MultiPage.sent := MultiPage.sent w ++ [MultiPage.request page] |}).
Proof. reflexivity. Qed.

(** Starting the pages sends one request a page, in page order, whatever
    the network answers. *)
Lemma startPages_spec (net : MultiPage.Network) (pages : list Z) (w : MultiPage.World) :
  MultiPage.startPages net pages w =
  (map (pagePromise net) pages,
   {| MultiPage.state := MultiPage.state w;
      MultiPage.sent := MultiPage.sent w ++ map MultiPage.request pages |}).
Proof.
  revert w. induction pages as [|page pages IH]; intros w;
    cbn [MultiPage.startPages map].
  - rewrite app_nil_r. now destruct w.
  - rewrite fetchArtworkPage_promise. cbv beta iota.
    rewrite IH. cbn [MultiPage.state MultiPage.sent].
    now rewrite <- app_assoc.
Qed.

Lemma firstRejection_None {A : Type} (ps : list (MultiPage.Promise A)) :
  MultiPage.firstRejection ps = None ->
  forall t err, ~ In (t, inl err) ps.
Proof.
  induction ps as [|[t0 [err0|v0]] ps IH]; simpl; intros Hnone t err Hin.
  - exact Hin.
  - destruct (MultiPage.firstRejection ps) as [[t' err']|]; [|discriminate].
    destruct (t' <? t0)%nat; discriminate.
  - destruct Hin as [Heq|Hin]; [discriminate | now apply (IH Hnone t err)].
Qed.

(** The rejection [Promise.all] reports is one of the promises', and
    none settles before it. *)
Lemma firstRejection_Some {A : Type} (ps : list (MultiPage.Promise A)) (t : nat) (err : Exn) :
  MultiPage.firstRejection ps = Some (t, err) ->
  In (t, inl err) ps /\ forall t' err', In (t', inl err') ps -> (t <= t')%nat.
Proof.
  revert t err. induction ps as [|[t0 [err0|v0]] ps IH]; simpl; intros t err Hsome.
  - discriminate.
  - destruct (MultiPage.firstRejection ps) as [[t1 err1]|] eqn:F.
    + destruct (IH t1 err1 eq_refl) as [Hin Hmin].
      destruct (t1 <? t0)%nat eqn:E; injection Hsome as <- <-.
      * apply Nat.ltb_lt in E. split; [now right|].
        intros t' err' [[= <- <-]|Hin']; [lia | now apply (Hmin t' err')].
      * apply Nat.ltb_ge in E. split; [now left|].
        intros t' err' [[= <- <-]|Hin']; [lia|].
        specialize (Hmin t' err' Hin'). lia.
    + injection Hsome as <- <-. split; [now left|].
      intros t' err' [[= <- <-]|Hin']; [lia|].
      now destruct (firstRejection_None ps F t' err').
  - destruct (IH t err Hsome) as [Hin Hmin]. split; [now right|].
    intros t' err' [Heq|Hin']; [discriminate | now apply (Hmin t' err')].
Qed.

(** When every rejection other than [err] settles after a promise that
    rejects with [err], [Promise.all] rejects with [err]. *)
Lemma Promise_all_rejects {A : Type} (ps : list (MultiPage.Promise A)) (t : nat) (err : Exn) :
  In (t, inl err) ps ->
  (forall t' err', In (t', inl err') ps -> err' = err \/ (t < t')%nat) ->
  MultiPage.Promise_all ps = inl err.
Proof.
  intros Hin Hothers. unfold MultiPage.Promise_all.
  destruct (MultiPage.firstRejection ps) as [[t0 err0]|] eqn:F.
  - destruct (firstRejection_Some ps t0 err0 F) as [Hin0 Hmin].
    destruct (Hothers t0 err0 Hin0) as [->|Hlt]; [reflexivity|].
    specialize (Hmin t err Hin). lia.
  - now destruct (firstRejection_None ps F t err).
Qed.

Lemma substring_Contains (pre s post : string) : Contains s (pre ++ s ++ post)%string.
Proof. now exists pre, post. Qed.

End LoadFacts.

(** * Claims on the load *)

(** How the multi-page load ends when [Promise.all] rejects, and when it
    is fulfilled. *)
Lemma fetchArtworks_rejected (net : MultiPage.Network) (w : MultiPage.World) (err : Exn) :
  MultiPage.Promise_all (map (pagePromise net) MultiPage.pageNumbers) = inl err ->
  MultiPage.fetchArtworks net w =
  {| MultiPage.state :=
       {| MultiPage.State.artworks := MultiPage.State.artworks (MultiPage.state w);
          MultiPage.State.selectedIndex := MultiPage.State.selectedIndex (MultiPage.state w);
          MultiPage.State.selectedArtwork := MultiPage.State.selectedArtwork (MultiPage.state w);
          MultiPage.State.isLoading := false;
          MultiPage.State.error := Some (errorMessage err) |};
     MultiPage.sent := MultiPage.sent w ++ map MultiPage.request MultiPage.pageNumbers |}.
Proof.
  intros Hall. unfold MultiPage.fetchArtworks.
  rewrite startPages_spec. cbv beta iota zeta. now rewrite Hall.
Qed.

Lemma fetchArtworks_fulfilled (net : MultiPage.Network) (w : MultiPage.World)
      (pages : list (list Artwork)) :
  MultiPage.Promise_all (map (pagePromise net) MultiPage.pageNumbers) = inr pages ->
  MultiPage.fetchArtworks net w =
  {| MultiPage.state :=
       {| MultiPage.State.artworks := MultiPage.filtered pages;
          MultiPage.State.selectedIndex := MultiPage.State.selectedIndex (MultiPage.state w);
          MultiPage.State.selectedArtwork := MultiPage.State.selectedArtwork (MultiPage.state w);
          MultiPage.State.isLoading := false;
          MultiPage.State.error := None |};
     MultiPage.sent := MultiPage.sent w ++ map MultiPage.request MultiPage.pageNumbers |}.
Proof.
  intros Hall. unfold MultiPage.fetchArtworks.
  rewrite startPages_spec. cbv beta iota zeta. now rewrite Hall.
Qed.

(** When a promise rejects, [Promise.all] rejects, with the reason of one
    of the promises. *)
Lemma Promise_all_some_rejection {A : Type} (ps : list (MultiPage.Promise A)) (t : nat) (err : Exn) :
  In (t, inl err) ps ->
  exists t0 err0, In (t0, inl err0) ps /\ MultiPage.Promise_all ps = inl err0.
Proof.
  intros Hin. unfold MultiPage.Promise_all.
  destruct (MultiPage.firstRejection ps) as [[t0 err0]|] eqn:F.
  - exists t0, err0. split; [|reflexivity]. now apply firstRejection_Some.
  - now destruct (firstRejection_None ps F t err).
Qed.

(** C6, as amended.  Multi-page variant: when the response to a page has
    a status that is not a success, the load ends in an error state, the
    message being that of the page promise that rejected first, with the
    loading flag false and the record set as it was (empty, from the
    initial state); one request a page has been sent, none twice.  The
    message is the one made from that response, and contains its status
    code, when every rejection of another kind settles after that page.
    Single-page variant: the message of the one response always contains
    its status code, and there is the one request. *)
Theorem http_failure_reported :
  (forall (net : MultiPage.Network) (w : MultiPage.World) (page : Z) (response : Response),
      In page MultiPage.pageNumbers ->
      MultiPage.fetched (net (MultiPage.request page)) = inr response ->
      ok response = false ->
      let w' := MultiPage.fetchArtworks net w in
      let code := Js.String_of_number (status response) in
      (exists q err, In q MultiPage.pageNumbers /\ rejectsWith net q err
                     /\ MultiPage.State.error (MultiPage.state w') = Some (errorMessage err))
      /\ MultiPage.State.isLoading (MultiPage.state w') = false
      /\ MultiPage.State.artworks (MultiPage.state w')
         = MultiPage.State.artworks (MultiPage.state w)
      /\ MultiPage.sent w'
         = MultiPage.sent w ++ map MultiPage.request MultiPage.pageNumbers
      /\ ((forall q err, In q MultiPage.pageNumbers -> rejectsWith net q err ->
             err = httpError response
             \/ (MultiPage.settledAt (net (MultiPage.request page))
                 < MultiPage.settledAt (net (MultiPage.request q)))%nat) ->
          MultiPage.State.error (MultiPage.state w')
            = Some ("Unable to load artwork data (HTTP " ++ code ++ ")")%string
          /\ Contains code ("Unable to load artwork data (HTTP " ++ code ++ ")")%string))
  /\ (forall (net : SinglePage.Network) (w : SinglePage.World) (response : Response),
        net SinglePage.API_URL = inr response ->
        ok response = false ->
        let w' := SinglePage.fetchArtworks net w in
        let code := Js.String_of_number (status response) in
        SinglePage.State.error (SinglePage.state w')
          = Some ("Unable to load artwork data (HTTP " ++ code ++ ")")%string
        /\ Contains code ("Unable to load artwork data (HTTP " ++ code ++ ")")%string
        /\ SinglePage.State.isLoading (SinglePage.state w') = false
        /\ SinglePage.State.artworks (SinglePage.state w')
           = SinglePage.State.artworks (SinglePage.state w)
        /\ SinglePage.sent w' = SinglePage.sent w ++ [SinglePage.API_URL]).
Proof.
  split.
  - intros net w page response Hpage Hfetched Hok w' code.
    assert (Hrej : rejectsWith net page (httpError response)).
    { unfold rejectsWith, pagePromise. simpl. rewrite Hfetched.
      unfold readPage. now rewrite Hok. }
    assert (Hin : In (MultiPage.settledAt (net (MultiPage.request page)),
                      inl (httpError response))
                     (map (pagePromise net) MultiPage.pageNumbers)).
    { apply in_map_iff. exists page. split; [|exact Hpage].
      unfold rejectsWith in Hrej. rewrite <- Hrej. reflexivity. }
    destruct (Promise_all_some_rejection _ _ _ Hin) as [t0 [err0 [Hin0 Hall0]]].
    split; [|split; [|split; [|split]]].
    + apply in_map_iff in Hin0. destruct Hin0 as [q [Hq Hin0]].
      exists q, err0. split; [exact Hin0|]. split.
      * unfold rejectsWith. now rewrite Hq.
      * subst w'. now rewrite (fetchArtworks_rejected net w _ Hall0).
    + subst w'. now rewrite (fetchArtworks_rejected net w _ Hall0).
    + subst w'. now rewrite (fetchArtworks_rejected net w _ Hall0).
    + subst w'. now rewrite (fetchArtworks_rejected net w _ Hall0).
    + intros Hothers.
      assert (Hall : MultiPage.Promise_all (map (pagePromise net) MultiPage.pageNumbers)
                     = inl (httpError response)).
      { apply (Promise_all_rejects _ _ _ Hin).
        intros t' err' Hin'. apply in_map_iff in Hin'. destruct Hin' as [q [Hq Hin']].
        assert (Hrq : rejectsWith net q err').
        { unfold rejectsWith. now rewrite Hq. }
        destruct (Hothers q err' Hin' Hrq) as [->|Hlt]; [now left | right].
        unfold pagePromise in Hq. simpl in Hq. injection Hq as <- _. exact Hlt. }
      subst w'. rewrite (fetchArtworks_rejected net w _ Hall).
      split; [reflexivity | apply substring_Contains].
  - intros net w response Hnet Hok w' code.
    assert (Hw : w' =
              {| SinglePage.state :=
                   {| SinglePage.State.artworks := SinglePage.State.artworks (SinglePage.state w);
                      SinglePage.State.selectedIndex :=
                        SinglePage.State.selectedIndex (SinglePage.state w);
                      SinglePage.State.isLoading := false;
                      SinglePage.State.error := Some (errorMessage (httpError response)) |};
                 SinglePage.sent := SinglePage.sent w ++ [SinglePage.API_URL] |}).
    { subst w'. unfold SinglePage.fetchArtworks, SinglePage.fetch. rewrite Hnet.
      unfold readPage. now rewrite Hok. }
    rewrite Hw.
    split; [reflexivity|]. split; [apply substring_Contains|].
    split; [reflexivity|]. split; reflexivity.
Qed.

(** C6 on the network whose page 3 answers with status 500 first, and on
    the network that answers the single page with status 500, from the
    initial state. *)
Lemma http_failure_reported_witness :
  (MultiPage.State.error
     (MultiPage.state (MultiPage.fetchArtworks failingNetwork MultiPage.initialWorld))
   = Some "Unable to load artwork data (HTTP 500)"%string
   /\ Contains "500" "Unable to load artwork data (HTTP 500)")
  /\ SinglePage.State.error
       (SinglePage.state (SinglePage.fetchArtworks failingNetworkSingle SinglePage.initialWorld))
     = Some "Unable to load artwork data (HTTP 500)"%string.
Proof.
  split.
  - apply (proj1 http_failure_reported failingNetwork MultiPage.initialWorld 3
                 (failedResponse 500)).
    + vm_compute. tauto.
    + reflexivity.
    + reflexivity.
    + intros q err Hq Hrej. left.
      vm_compute in Hq.
      repeat (destruct Hq as [<-|Hq]; [vm_compute in Hrej |- *; congruence|]).
      destruct Hq.
  - apply (proj2 http_failure_reported failingNetworkSingle SinglePage.initialWorld
                 (failedResponse 500)).
    + reflexivity.
    + reflexivity.
Defined.

(** C6 as stated fails in the multi-page variant: page 3 answers with
    status 500, but the [fetch] of page 1 has rejected before, and the
    message of the load is that of page 1, which does not contain
    "500". *)
Lemma http_failure_reported_counterexample :
  In 3 MultiPage.pageNumbers
  /\ MultiPage.fetched (mixedFailureNetwork (MultiPage.request 3)) = inr (failedResponse 500)
  /\ ok (failedResponse 500) = false
  /\ MultiPage.State.error
       (MultiPage.state (MultiPage.fetchArtworks mixedFailureNetwork MultiPage.initialWorld))
     = Some "network down"%string
  /\ ~ Contains (Js.String_of_number (status (failedResponse 500))) "network down".
Proof.
  split; [vm_compute; tauto|]. split; [reflexivity|]. split; [reflexivity|].
  split; [vm_compute; reflexivity|].
  intros [pre [post H]].
  change (Js.String_of_number (status (failedResponse 500))) with "500"%string in H.
  repeat (destruct pre as [|? pre]; simpl in H;
          [discriminate H | injection H as _ H]).
  destruct pre; discriminate H.
Qed.

(** C3, as amended.  On the page of the scenario (page 1, the other
    pages empty) the multi-page load leaves the record set
    [[{id:1, title:"A", date_start:1923}]], whose bucket list is empty,
    the 1920s having fewer than 20 records.  The single-page load, which
    does not deduplicate, leaves both records of identifier 1, in one
    bucket labelled "1920s" that starts at 1920.  The single-page
    bucketizer on the record set of one record gives the bucket list of
    the scenario. *)
Theorem scenario_pipeline :
  MultiPage.State.artworks
    (MultiPage.state (MultiPage.fetchArtworks scenarioNetwork MultiPage.initialWorld))
  = [artwork 1 "A" (Some 1923)]
  /\ MultiPage.decades [artwork 1 "A" (Some 1923)] = []
  /\ SinglePage.State.artworks
       (SinglePage.state (SinglePage.fetchArtworks scenarioNetworkSingle SinglePage.initialWorld))
     = [artwork 1 "A" (Some 1923); artwork 1 "A-dup" (Some 1923)]
  /\ SinglePage.decades [artwork 1 "A" (Some 1923); artwork 1 "A-dup" (Some 1923)]
     = [ {| label := "1920s"; startYear := 1920;
            artworks := [artwork 1 "A" (Some 1923); artwork 1 "A-dup" (Some 1923)] |} ]
  /\ SinglePage.decades [artwork 1 "A" (Some 1923)]
     = [ {| label := "1920s"; startYear := 1920;
            artworks := [artwork 1 "A" (Some 1923)] |} ].
Proof.
  repeat split; vm_compute; reflexivity.
Qed.

(** C3 as stated fails in both variants: the multi-page load gives no
    bucket, and the single-page load keeps the duplicate. *)
Lemma scenario_pipeline_counterexample :
  MultiPage.decades
    (MultiPage.State.artworks
       (MultiPage.state (MultiPage.fetchArtworks scenarioNetwork MultiPage.initialWorld)))
  <> [ {| label := "1920s"; startYear := 1920;
          artworks := [artwork 1 "A" (Some 1923)] |} ]
  /\ SinglePage.State.artworks
       (SinglePage.state (SinglePage.fetchArtworks scenarioNetworkSingle SinglePage.initialWorld))
     <> [artwork 1 "A" (Some 1923)].
Proof.
  split; vm_compute; intros H; discriminate H.
Qed.

(** * Claims on the selection and on the image URL *)

Lemma multi_clamp_nonnegative (changes : list (list DecadeCollection)) (w : MultiPage.World) :
  0 <= MultiPage.State.selectedIndex (MultiPage.state w) ->
  0 <= MultiPage.State.selectedIndex
         (MultiPage.state (fold_left (fun w ds => MultiPage.clampSelectedIndex ds w) changes w)).
Proof.
  revert w. induction changes as [|ds changes IH]; intros w Hw; simpl; [exact Hw|].
  apply IH. unfold MultiPage.clampSelectedIndex.
  destruct (Z.of_nat (length ds) =? 0) eqn:E; [exact Hw|].
  apply Z.eqb_neq in E. destruct w as [[arts i sel loading err] sent]. simpl in *. lia.
Qed.

Lemma single_clamp_nonnegative (changes : list (list DecadeCollection)) (w : SinglePage.World) :
  0 <= SinglePage.State.selectedIndex (SinglePage.state w) ->
  0 <= SinglePage.State.selectedIndex
         (SinglePage.state (fold_left (fun w ds => SinglePage.clampSelectedIndex ds w) changes w)).
Proof.
  revert w. induction changes as [|ds changes IH]; intros w Hw; simpl; [exact Hw|].
  apply IH. unfold SinglePage.clampSelectedIndex.
  destruct (Z.of_nat (length ds) =? 0) eqn:E; [exact Hw|].
  apply Z.eqb_neq in E. destruct w as [[arts i loading err] sent]. simpl in *. lia.
Qed.

(** C7.  Both variants.  When the clamp runs, on a bucket list that is
    not empty, it sets the selected index to
    [min(current, bucketCount - 1)]: an index beyond [bucketCount - 1]
    becomes exactly [bucketCount - 1], and an index that is not negative
    stays so.  On an empty bucket list the guard returns before the
    clamp and the state is left as it is.  The index, which starts at
    zero, is never negative, through any sequence of changes of the
    bucket list. *)
Theorem selection_clamped :
  (forall (ds : list DecadeCollection) (w : MultiPage.World),
      ds <> [] ->
      let current := MultiPage.State.selectedIndex (MultiPage.state w) in
      let bucketCount := Z.of_nat (length ds) in
      let selected :=
        MultiPage.State.selectedIndex (MultiPage.state (MultiPage.clampSelectedIndex ds w)) in
      selected = Z.min current (bucketCount - 1)
      /\ (bucketCount - 1 < current -> selected = bucketCount - 1)
      /\ (0 <= current -> 0 <= selected))
  /\ (forall w : MultiPage.World, MultiPage.clampSelectedIndex [] w = w)
  /\ (forall (ds : list DecadeCollection) (w : SinglePage.World),
        ds <> [] ->
        let current := SinglePage.State.selectedIndex (SinglePage.state w) in
        let bucketCount := Z.of_nat (length ds) in
        let selected :=
          SinglePage.State.selectedIndex (SinglePage.state (SinglePage.clampSelectedIndex ds w)) in
        selected = Z.min current (bucketCount - 1)
        /\ (bucketCount - 1 < current -> selected = bucketCount - 1)
        /\ (0 <= current -> 0 <= selected))
  /\ (forall w : SinglePage.World, SinglePage.clampSelectedIndex [] w = w)
  /\ (forall changes : list (list DecadeCollection),
        0 <= MultiPage.State.selectedIndex
               (MultiPage.state
                  (fold_left (fun w ds => MultiPage.clampSelectedIndex ds w) changes
                             MultiPage.initialWorld)))
  /\ (forall changes : list (list DecadeCollection),
        0 <= SinglePage.State.selectedIndex
               (SinglePage.state
                  (fold_left (fun w ds => SinglePage.clampSelectedIndex ds w) changes
                             SinglePage.initialWorld))).
Proof.
  split; [|split; [reflexivity | split; [|split; [reflexivity | split]]]];
    [ | | intros changes; apply multi_clamp_nonnegative; simpl; lia
        | intros changes; apply single_clamp_nonnegative; simpl; lia ].
  - intros ds w Hne current bucketCount selected.
    assert (Hsel : selected = Z.min current (bucketCount - 1)).
    { subst selected. unfold MultiPage.clampSelectedIndex.
      destruct ds as [|c ds]; [contradiction|].
      replace (Z.of_nat (length (c :: ds)) =? 0) with false; [reflexivity|].
      symmetry. apply Z.eqb_neq. simpl length. lia. }
    assert (0 < bucketCount).
    { subst bucketCount. destruct ds; [contradiction | simpl length; lia]. }
    rewrite Hsel. repeat split; lia.
  - intros ds w Hne current bucketCount selected.
    assert (Hsel : selected = Z.min current (bucketCount - 1)).
    { subst selected. unfold SinglePage.clampSelectedIndex.
      destruct ds as [|c ds]; [contradiction|].
      replace (Z.of_nat (length (c :: ds)) =? 0) with false; [reflexivity|].
      symmetry. apply Z.eqb_neq. simpl length. lia. }
    assert (0 < bucketCount).
    { subst bucketCount. destruct ds; [contradiction | simpl length; lia]. }
    rewrite Hsel. repeat split; lia.
Qed.

(** C7 at a list of one bucket and a selected index of 3: the index
    becomes 0. *)
Lemma selection_clamped_witness :
  MultiPage.State.selectedIndex
    (MultiPage.state
       (MultiPage.clampSelectedIndex
          (SinglePage.decades [artwork 1 "A" (Some 1923)])
          (MultiPage.setSelectedIndex (fun _ => 3) MultiPage.initialWorld)))
  = 0.
Proof.
  apply (proj1 selection_clamped
               (SinglePage.decades [artwork 1 "A" (Some 1923)])
               (MultiPage.setSelectedIndex (fun _ => 3) MultiPage.initialWorld)).
  - vm_compute. intros H. discriminate H.
  - vm_compute. reflexivity.
Defined.

(** C8.  For a record whose image identifier is a non-empty string the
    URL is [https://www.artic.edu/iiif/2/{image_id}/full/843,/0/default.jpg];
    for a record without image identifier it is the fallback, a fixed
    identifier under the same path [/iiif/2/.../full/843,/0/default.jpg];
    an empty identifier counts as none. *)
Theorem imageUrl_spec (r : Artwork) :
  (forall imageId, image_id r = Some imageId -> imageId <> EmptyString ->
     imageUrl (image_id r)
     = ("https://www.artic.edu/iiif/2/" ++ imageId ++ "/full/843,/0/default.jpg")%string)
  /\ (image_id r = None \/ image_id r = Some EmptyString ->
      imageUrl (image_id r)
      = ("https://images.artic.edu" ++ "/iiif/2/"
           ++ "8d6f8f8b-fafa-376e-4f0f-0a36d4f7288f"
           ++ "/full/843,/0/default.jpg")%string)
  /\ imageUrl (Some "abc"%string)
     = "https://www.artic.edu/iiif/2/abc/full/843,/0/default.jpg"%string.
Proof.
  split; [|split].
  - intros imageId -> Hne. unfold imageUrl, Js.truthy_string.
    apply String.eqb_neq in Hne. now rewrite Hne.
  - intros [->| ->]; reflexivity.
  - reflexivity.
Qed.

(** C8 at a record whose image identifier is "abc" and at a record
    without one. *)
Lemma imageUrl_spec_witness :
  imageUrl (image_id {| id := 1; title := "A"; artist_display := None;
                        date_display := None; date_start := Some 1923;
                        image_id := Some "abc"%string |})
  = "https://www.artic.edu/iiif/2/abc/full/843,/0/default.jpg"%string
  /\ imageUrl (image_id (artwork 1 "A" (Some 1923)))
     = "https://images.artic.edu/iiif/2/8d6f8f8b-fafa-376e-4f0f-0a36d4f7288f/full/843,/0/default.jpg"%string.
Proof.
  split.
  - apply (proj1 (imageUrl_spec {| id := 1; title := "A"; artist_display := None;
                                   date_display := None; date_start := Some 1923;
                                   image_id := Some "abc"%string |}) "abc"%string).
    + reflexivity.
    + intros H. discriminate H.
  - apply (proj1 (proj2 (imageUrl_spec (artwork 1 "A" (Some 1923))))).
    left. reflexivity.
Defined.

(** * Further properties: [formatArtist] *)

Section TextFacts.

Lemma trimStart_blank (s : string) : JsString.trimStart s = EmptyString <-> blank s = true.
Proof.
  induction s as [|c s IH]; simpl.
  - tauto.
  - destruct (JsString.isWhiteSpace c); simpl; [exact IH|].
    split; discriminate.
Qed.

Lemma trimEnd_blank (s : string) : JsString.trimEnd s = EmptyString <-> blank s = true.
Proof.
  induction s as [|c s IH]; simpl.
  - tauto.
  - destruct (JsString.trimEnd s) eqn:E.
    + destruct (JsString.isWhiteSpace c); simpl.
      * split; [intros _; now apply IH | reflexivity].
      * split; discriminate.
    + split; [discriminate|]. intros H. apply andb_true_iff in H.
      destruct H as [_ H]. apply IH in H. discriminate.
Qed.

Lemma blank_trimStart (s : string) : blank (JsString.trimStart s) = blank s.
Proof.
  induction s as [|c s IH]; simpl; [reflexivity|].
  destruct (JsString.isWhiteSpace c) eqn:E; simpl; [exact IH | now rewrite E].
Qed.

Lemma trim_blank (s : string) : JsString.trim s = EmptyString <-> blank s = true.
Proof.
  unfold JsString.trim. now rewrite trimEnd_blank, blank_trimStart.
Qed.

Lemma trimStart_startsWhite (s : string) : startsWhite (JsString.trimStart s) = false.
Proof.
  induction s as [|c s IH]; simpl; [reflexivity|].
  destruct (JsString.isWhiteSpace c) eqn:E; [exact IH | exact E].
Qed.

Lemma trimStart_fixed (s : string) : startsWhite s = false -> JsString.trimStart s = s.
Proof.
  destruct s as [|c s]; simpl; [reflexivity|]. now intros ->.
Qed.

Lemma trimEnd_startsWhite (s : string) :
  startsWhite s = false -> startsWhite (JsString.trimEnd s) = false.
Proof.
  destruct s as [|c s]; simpl; [reflexivity|]. intros Hc.
  destruct (JsString.trimEnd s); simpl; [now rewrite Hc | exact Hc].
Qed.

Lemma trimEnd_endsWhite (s : string) : endsWhite (JsString.trimEnd s) = false.
Proof.
  induction s as [|c s IH]; simpl; [reflexivity|].
  destruct (JsString.trimEnd s) as [|c' t] eqn:E.
  - destruct (JsString.isWhiteSpace c) eqn:W; simpl; [reflexivity | exact W].
  - exact IH.
Qed.

Lemma trimEnd_fixed (s : string) : endsWhite s = false -> JsString.trimEnd s = s.
Proof.
  induction s as [|c s IH]; simpl; [reflexivity|].
  destruct s as [|c' s'].
  - simpl. now intros ->.
  - intros H. rewrite (IH H). reflexivity.
Qed.

Lemma trim_fixed (s : string) :
  startsWhite s = false -> endsWhite s = false -> JsString.trim s = s.
Proof.
  intros Hs He. unfold JsString.trim. rewrite (trimStart_fixed s Hs). now apply trimEnd_fixed.
Qed.

Lemma trim_startsWhite (s : string) : startsWhite (JsString.trim s) = false.
Proof. apply trimEnd_startsWhite, trimStart_startsWhite. Qed.

Lemma trim_endsWhite (s : string) : endsWhite (JsString.trim s) = false.
Proof. apply trimEnd_endsWhite. Qed.

Lemma trim_idempotent (s : string) : JsString.trim (JsString.trim s) = JsString.trim s.
Proof. apply trim_fixed; [apply trim_startsWhite | apply trim_endsWhite]. Qed.

(** Trimming adds no code unit. *)
Lemma occursIn_trimStart (c : ascii) (s : string) :
  occursIn c (JsString.trimStart s) = true -> occursIn c s = true.
Proof.
  induction s as [|c' s IH]; simpl; [discriminate|].
  destruct (JsString.isWhiteSpace c'); simpl; [|tauto].
  intros H. rewrite (IH H). apply orb_true_r.
Qed.

Lemma occursIn_trimEnd (c : ascii) (s : string) :
  occursIn c (JsString.trimEnd s) = true -> occursIn c s = true.
Proof.
  induction s as [|c' s IH]; simpl; [discriminate|].
  destruct (JsString.trimEnd s) as [|c'' t] eqn:E.
  - destruct (JsString.isWhiteSpace c'); simpl; [discriminate|].
    rewrite orb_false_r. intros ->. reflexivity.
  - simpl. intros H. apply orb_true_iff in H. destruct H as [->|H]; [reflexivity|].
    rewrite IH; [apply orb_true_r | exact H].
Qed.

Lemma occursIn_trim (c : ascii) (s : string) :
  occursIn c s = false -> occursIn c (JsString.trim s) = false.
Proof.
  intros H. apply not_true_is_false. intros Ht.
  apply occursIn_trimEnd, occursIn_trimStart in Ht. congruence.
Qed.

(** [split] gives a piece at least, the first being the first line. *)
Lemma split_first (s : string) :
  exists rest, JsString.split JsString.LF s = firstLine s :: rest.
Proof.
  induction s as [|c s [rest IH]]; simpl.
  - now exists [].
  - destruct (Ascii.eqb c JsString.LF).
    + now exists (JsString.split JsString.LF s).
    + rewrite IH. now exists rest.
Qed.

Lemma firstLine_no_LF (s : string) : occursIn JsString.LF (firstLine s) = false.
Proof.
  induction s as [|c s IH]; simpl; [reflexivity|].
  destruct (Ascii.eqb c JsString.LF) eqn:E; simpl; [reflexivity|]. now rewrite E.
Qed.

Lemma firstLine_fixed (s : string) : occursIn JsString.LF s = false -> firstLine s = s.
Proof.
  induction s as [|c s IH]; simpl; [reflexivity|].
  destruct (Ascii.eqb c JsString.LF); simpl; [discriminate|].
  intros H. now rewrite (IH H).
Qed.

Lemma truthy_string_empty (s : string) : Js.truthy_string s = false <-> s = EmptyString.
Proof.
  unfold Js.truthy_string. rewrite negb_false_iff. apply String.eqb_eq.
Qed.

Lemma formatArtist_Some (s : string) :
  formatArtist (Some s) =
  if blank s then "Unknown artist"%string else JsString.trim (firstLine s).
Proof.
  unfold formatArtist. destruct (split_first s) as [rest ->]. simpl.
  destruct (blank s) eqn:B.
  - apply trim_blank in B. rewrite B. reflexivity.
  - destruct (Js.truthy_string (JsString.trim s)) eqn:T; [reflexivity|].
    apply truthy_string_empty, trim_blank in T. congruence.
Qed.

End TextFacts.

(** X1.  [formatArtist] gives "Unknown artist" for a missing or blank
    artist text, and otherwise the first line of the text, trimmed; the
    fallback after [??] is never taken, [split] giving a first piece
    always. *)
Theorem formatArtist_first_line :
  formatArtist None = "Unknown artist"%string
  /\ (forall s, blank s = true -> formatArtist (Some s) = "Unknown artist"%string)
  /\ (forall s, blank s = false -> formatArtist (Some s) = JsString.trim (firstLine s))
  /\ (forall s, nth_error (JsString.split JsString.LF s) 0 = Some (firstLine s)).
Proof.
  split; [reflexivity|]. split; [|split].
  - intros s B. now rewrite formatArtist_Some, B.
  - intros s B. now rewrite formatArtist_Some, B.
  - intros s. now destruct (split_first s) as [rest ->].
Qed.

(** X1 at a text of two lines. *)
Lemma formatArtist_first_line_witness :
  formatArtist (Some ("  Claude Monet " ++ String JsString.LF "French, 1840-1926")%string)
  = JsString.trim (firstLine ("  Claude Monet " ++ String JsString.LF "French, 1840-1926")%string).
Proof.
  apply (proj1 (proj2 (proj2 formatArtist_first_line))). reflexivity.
Defined.

(** X2.  The text [formatArtist] gives has no line feed and neither
    starts nor ends with white space. *)
Theorem formatArtist_clean (artistDisplay : option string) :
  occursIn JsString.LF (formatArtist artistDisplay) = false
  /\ startsWhite (formatArtist artistDisplay) = false
  /\ endsWhite (formatArtist artistDisplay) = false.
Proof.
  destruct artistDisplay as [s|]; [|now vm_compute].
  rewrite formatArtist_Some. destruct (blank s); [now vm_compute|].
  split; [|split].
  - apply occursIn_trim, firstLine_no_LF.
  - apply trim_startsWhite.
  - apply trim_endsWhite.
Qed.

(** X3.  [formatArtist] gives the empty string, and not "Unknown
    artist", exactly when the text is not blank but its first line is;
    a text without line feed that is not blank gives a non-empty
    text. *)
Theorem formatArtist_empty (s : string) :
  (formatArtist (Some s) = EmptyString <-> blank s = false /\ blank (firstLine s) = true)
  /\ (occursIn JsString.LF s = false -> blank s = false ->
      formatArtist (Some s) <> EmptyString).
Proof.
  split.
  - rewrite formatArtist_Some. destruct (blank s) eqn:B.
    + split; [discriminate | now intros [? _]].
    + rewrite trim_blank. tauto.
  - intros HLF B. rewrite formatArtist_Some, B, (firstLine_fixed s HLF), trim_blank.
    congruence.
Qed.

(** X3 at a text whose first line is empty. *)
Lemma formatArtist_empty_witness :
  formatArtist (Some (String JsString.LF "Pablo Picasso")) = EmptyString.
Proof.
  apply (proj1 (formatArtist_empty (String JsString.LF "Pablo Picasso"))).
  split; reflexivity.
Defined.

(** X4.  Formatting a text that [formatArtist] gave changes nothing,
    when that text is not empty. *)
Theorem formatArtist_idempotent (artistDisplay : option string) :
  formatArtist artistDisplay <> EmptyString ->
  formatArtist (Some (formatArtist artistDisplay)) = formatArtist artistDisplay.
Proof.
  intros Hne. destruct (formatArtist_clean artistDisplay) as [HLF [Hs He]].
  rewrite formatArtist_Some.
  destruct (blank (formatArtist artistDisplay)) eqn:B.
  - apply trim_blank in B. rewrite (trim_fixed _ Hs He) in B. contradiction.
  - rewrite (firstLine_fixed _ HLF). now apply trim_fixed.
Qed.

(** X4 at a text of two lines. *)
Lemma formatArtist_idempotent_witness :
  formatArtist
    (Some (formatArtist (Some ("  Claude Monet " ++ String JsString.LF "French")%string)))
  = formatArtist (Some ("  Claude Monet " ++ String JsString.LF "French")%string).
Proof.
  apply formatArtist_idempotent. vm_compute. intros H. discriminate H.
Defined.

(** * Further properties: the load *)

Section LoadOutcomeFacts.

Lemma all_fulfilled (net : MultiPage.Network) (pages : list Z) :
  (forall p, In p pages -> exists records, snd (pagePromise net p) = inr records) ->
  MultiPage.Promise_all (map (pagePromise net) pages) = inr (map (pageData net) pages).
Proof.
  intros Hall. unfold MultiPage.Promise_all.
  assert (H : MultiPage.firstRejection (map (pagePromise net) pages) = None
              /\ MultiPage.fulfilledValues (map (pagePromise net) pages)
                 = map (pageData net) pages).
  { induction pages as [|p pages IH]; [now split|].
    destruct IH as [IH1 IH2]; [intros q Hq; apply Hall; now right|].
    destruct (Hall p (or_introl eq_refl)) as [records Hp].
    cbn [map MultiPage.firstRejection MultiPage.fulfilledValues].
    unfold pageData at 1. rewrite Hp.
    destruct (pagePromise net p) as [t outcome]. cbn [snd] in Hp. subst outcome.
    cbn [MultiPage.firstRejection MultiPage.fulfilledValues].
    now rewrite IH1, IH2. }
  destruct H as [-> ->]. reflexivity.
Qed.

Lemma SinglePage_fetchArtworks_cases (net : SinglePage.Network) (w : SinglePage.World) :
  SinglePage.fetchArtworks net w =
  let outcome :=
    match net SinglePage.API_URL with
    | inl err => inl err
    | inr response => readPage response
    end in
  {| SinglePage.state :=
       {| SinglePage.State.artworks :=
            match outcome with
            | inr page => SinglePage.filtered page
            | inl _ => SinglePage.State.artworks (SinglePage.state w)
            end;
          SinglePage.State.selectedIndex := SinglePage.State.selectedIndex (SinglePage.state w);
          SinglePage.State.isLoading := false;
          SinglePage.State.error :=
            match outcome with
            | inr _ => None
            | inl err => Some (errorMessage err)
            end |};
     SinglePage.sent := SinglePage.sent w ++ [SinglePage.API_URL] |}.
Proof.
  unfold SinglePage.fetchArtworks, SinglePage.fetch. cbv zeta.
  destruct (net SinglePage.API_URL) as [err|response]; [reflexivity|].
  destruct (readPage response); reflexivity.
Qed.

End LoadOutcomeFacts.

(** X5.  Multi-page load, success: when the ten page promises fulfil,
    the load ends with the loading flag false, no error, and as record
    set the aggregate of the pages taken in page order, whatever the
    order in which the pages settled; the selection is untouched and one
    request a page has been sent. *)
Theorem multi_load_success (net : MultiPage.Network) (w : MultiPage.World) :
  (forall p, In p MultiPage.pageNumbers ->
             exists records, snd (pagePromise net p) = inr records) ->
  MultiPage.fetchArtworks net w =
  {| MultiPage.state :=
       {| MultiPage.State.artworks :=
            MultiPage.filtered (map (pageData net) MultiPage.pageNumbers);
          MultiPage.State.selectedIndex := MultiPage.State.selectedIndex (MultiPage.state w);
          MultiPage.State.selectedArtwork := MultiPage.State.selectedArtwork (MultiPage.state w);
          MultiPage.State.isLoading := false;
          MultiPage.State.error := None |};
     MultiPage.sent := MultiPage.sent w ++ map MultiPage.request MultiPage.pageNumbers |}.
Proof.
  intros Hall. apply fetchArtworks_fulfilled. now apply all_fulfilled.
Qed.

(** X5 on the network of the scenario. *)
Lemma multi_load_success_witness :
  MultiPage.State.artworks
    (MultiPage.state (MultiPage.fetchArtworks scenarioNetwork MultiPage.initialWorld))
  = MultiPage.filtered (map (pageData scenarioNetwork) MultiPage.pageNumbers).
Proof.
  rewrite (multi_load_success scenarioNetwork MultiPage.initialWorld).
  - reflexivity.
  - intros p _. eexists. reflexivity.
Defined.

(** X6.  Multi-page load, failure: when a page promise rejects, for
    whatever reason, the load ends with the record set as it was, the
    records of the pages that fulfilled being dropped, with the loading
    flag false and as error the message of a rejection that no other
    rejection settles before. *)
Theorem multi_load_all_or_nothing (net : MultiPage.Network) (w : MultiPage.World)
        (page : Z) (err : Exn) :
  In page MultiPage.pageNumbers -> rejectsWith net page err ->
  exists q err0,
    In q MultiPage.pageNumbers /\ rejectsWith net q err0
    /\ (forall q' err', In q' MultiPage.pageNumbers -> rejectsWith net q' err' ->
          (MultiPage.settledAt (net (MultiPage.request q))
           <= MultiPage.settledAt (net (MultiPage.request q')))%nat)
    /\ MultiPage.fetchArtworks net w =
       {| MultiPage.state :=
            {| MultiPage.State.artworks := MultiPage.State.artworks (MultiPage.state w);
               MultiPage.State.selectedIndex := MultiPage.State.selectedIndex (MultiPage.state w);
               MultiPage.State.selectedArtwork :=
                 MultiPage.State.selectedArtwork (MultiPage.state w);
               MultiPage.State.isLoading := false;
               MultiPage.State.error := Some (errorMessage err0) |};
          MultiPage.sent := MultiPage.sent w ++ map MultiPage.request MultiPage.pageNumbers |}.
Proof.
  intros Hpage Hrej.
  destruct (MultiPage.firstRejection (map (pagePromise net) MultiPage.pageNumbers))
    as [[t0 err0]|] eqn:F.
  - destruct (firstRejection_Some _ _ _ F) as [Hin Hmin].
    apply in_map_iff in Hin. destruct Hin as [q [Hq Hin]].
    exists q, err0. split; [exact Hin|]. split; [|split].
    + unfold rejectsWith. now rewrite Hq.
    + intros q' err' Hq' Hrej'.
      assert (Ht : MultiPage.settledAt (net (MultiPage.request q)) = t0).
      { unfold pagePromise in Hq. simpl in Hq. now injection Hq as -> _. }
      rewrite Ht. apply (Hmin _ err'). apply in_map_iff. exists q'. split; [|exact Hq'].
      unfold rejectsWith in Hrej'. rewrite <- Hrej'. reflexivity.
    + apply fetchArtworks_rejected. unfold MultiPage.Promise_all. now rewrite F.
  - exfalso.
    apply (firstRejection_None _ F (MultiPage.settledAt (net (MultiPage.request page))) err).
    apply in_map_iff. exists page. split; [|exact Hpage].
    unfold rejectsWith in Hrej. rewrite <- Hrej. reflexivity.
Qed.

(** X6 on the network whose page 3 fails. *)
Lemma multi_load_all_or_nothing_witness :
  exists q err0,
    In q MultiPage.pageNumbers /\ rejectsWith failingNetwork q err0
    /\ (forall q' err', In q' MultiPage.pageNumbers -> rejectsWith failingNetwork q' err' ->
          (MultiPage.settledAt (failingNetwork (MultiPage.request q))
           <= MultiPage.settledAt (failingNetwork (MultiPage.request q')))%nat)
    /\ MultiPage.fetchArtworks failingNetwork MultiPage.initialWorld =
       {| MultiPage.state :=
            {| MultiPage.State.artworks := [];
               MultiPage.State.selectedIndex := 0;
               MultiPage.State.selectedArtwork := None;
               MultiPage.State.isLoading := false;
               MultiPage.State.error := Some (errorMessage err0) |};
          MultiPage.sent := map MultiPage.request MultiPage.pageNumbers |}.
Proof.
  apply (multi_load_all_or_nothing failingNetwork MultiPage.initialWorld 3
           (httpError (failedResponse 500))).
  - vm_compute. tauto.
  - reflexivity.
Defined.

(** X7.  Single-page load: whatever the network answers, the load ends
    with the loading flag false, one request sent and the selection
    untouched; either there is no error and the record set is the
    filtered page of a response that was [ok] and whose body parsed, or
    there is an error message and the record set is as it was. *)
Theorem single_load_outcome (net : SinglePage.Network) (w : SinglePage.World) :
  let w' := SinglePage.fetchArtworks net w in
  SinglePage.State.isLoading (SinglePage.state w') = false
  /\ SinglePage.sent w' = SinglePage.sent w ++ [SinglePage.API_URL]
  /\ SinglePage.State.selectedIndex (SinglePage.state w')
     = SinglePage.State.selectedIndex (SinglePage.state w)
  /\ ((SinglePage.State.error (SinglePage.state w') = None
       /\ exists response body,
            net SinglePage.API_URL = inr response /\ ok response = true
            /\ json response = inr body
            /\ SinglePage.State.artworks (SinglePage.state w')
               = filter retained (data body))
      \/ (exists message,
            SinglePage.State.error (SinglePage.state w') = Some message
            /\ SinglePage.State.artworks (SinglePage.state w')
               = SinglePage.State.artworks (SinglePage.state w))).
Proof.
  intros w'. subst w'. rewrite SinglePage_fetchArtworks_cases. cbv zeta. simpl.
  split; [reflexivity|]. split; [reflexivity|]. split; [reflexivity|].
  destruct (net SinglePage.API_URL) as [err|response] eqn:N.
  - right. now exists (errorMessage err).
  - unfold readPage. destruct (ok response) eqn:O; simpl.
    + destruct (json response) as [err|body] eqn:J.
      * right. now exists (errorMessage err).
      * left. split; [reflexivity|]. now exists response, body.
    + right. eexists. split; reflexivity.
Qed.

(** * Further properties: the aggregator *)

Section DedupeFacts.

(** On records of distinct identifiers, none 0 and none in the map yet,
    deduplication appends every record. *)
Lemma fold_dedupeStep_distinct (l : list Artwork) (m : Js.Map.t Artwork) :
  NoDup (map id l) ->
  (forall r, In r l -> id r <> 0) ->
  (forall r, In r l -> Js.Map.get (id r) m = None) ->
  Js.Map.values (fold_left MultiPage.dedupeStep l m) = Js.Map.values m ++ l.
Proof.
  revert m. induction l as [|a l IH]; intros m Hnd Hid Hfresh; simpl.
  - now rewrite app_nil_r.
  - inversion Hnd as [|? ? Hnotin Hnd']; subst.
    assert (Hstep : MultiPage.dedupeStep m a = m ++ [(id a, a)]).
    { unfold MultiPage.dedupeStep, Js.truthy_number, Js.Map.has.
      rewrite (Hfresh a (or_introl eq_refl)).
      replace (id a =? 0) with false
        by (symmetry; apply Z.eqb_neq, Hid; now left).
      simpl. apply set_absent, Hfresh. now left. }
    rewrite IH; [| exact Hnd' | intros r Hr; apply Hid; now right |].
    + rewrite Hstep. unfold Js.Map.values. rewrite map_app. simpl.
      now rewrite <- app_assoc.
    + intros r Hr. unfold MultiPage.dedupeStep, Js.truthy_number, Js.Map.has.
      rewrite (Hfresh a (or_introl eq_refl)).
      replace (id a =? 0) with false
        by (symmetry; apply Z.eqb_neq, Hid; now left).
      simpl. rewrite get_set_other; [apply Hfresh; now right|].
      intros Heq. apply Hnotin. rewrite Heq. now apply in_map.
Qed.

Lemma filter_filter {A : Type} (p : A -> bool) (l : list A) :
  filter p (filter p l) = filter p l.
Proof.
  induction l as [|x l IH]; simpl; [reflexivity|].
  destruct (p x) eqn:E; simpl; [now rewrite E, IH | exact IH].
Qed.

Lemma filtered_distinct (pages : list (list Artwork)) :
  NoDup (map id (concat pages)) ->
  (forall r, In r (concat pages) -> id r <> 0) ->
  MultiPage.filtered pages = SinglePage.filtered (concat pages).
Proof.
  intros Hnd Hid. unfold MultiPage.filtered, SinglePage.filtered, MultiPage.deduped,
    MultiPage.merged.
  now rewrite (fold_dedupeStep_distinct (concat pages) Js.Map.empty Hnd Hid).
Qed.

End DedupeFacts.

(** X8.  On pages whose records have distinct identifiers, none of them
    0, the multi-page aggregator gives what the single-page filter gives
    on the pages put end to end: deduplication removes nothing. *)
Theorem aggregators_agree (pages : list (list Artwork)) :
  NoDup (map id (concat pages)) ->
  (forall r, In r (concat pages) -> id r <> 0) ->
  MultiPage.filtered pages = SinglePage.filtered (concat pages).
Proof. apply filtered_distinct. Qed.

(** X8 at two pages of one record each. *)
Lemma aggregators_agree_witness :
  MultiPage.filtered [[artwork 1 "A" (Some 1923)]; [artwork 2 EmptyString (Some 1925)]]
  = SinglePage.filtered
      (concat [[artwork 1 "A" (Some 1923)]; [artwork 2 EmptyString (Some 1925)]]).
Proof.
  apply aggregators_agree.
  - simpl. repeat constructor; simpl; intuition discriminate.
  - simpl. intros r [<-|[<-|[]]]; simpl; lia.
Defined.

(** X9.  Aggregating the output of the multi-page aggregator again, as
    one page, gives it back. *)
Theorem aggregate_idempotent (pages : list (list Artwork)) :
  MultiPage.filtered [MultiPage.filtered pages] = MultiPage.filtered pages.
Proof.
  rewrite filtered_distinct; simpl; rewrite ?app_nil_r.
  - apply filter_filter.
  - unfold MultiPage.filtered. apply filter_NoDup_map.
    rewrite <- deduped_keys. apply deduped_NoDup.
  - intros r Hr. apply filtered_In in Hr. tauto.
Qed.

(** * Further properties: the bucketizer *)

Section MoreBucketFacts.

Lemma addToBucket_no_year (m : Js.Map.t (list Artwork)) (a : Artwork) :
  hasYear a = false -> addToBucket m a = m.
Proof.
  unfold hasYear, addToBucket. now destruct (date_start a).
Qed.

Lemma buckets_hasYear (arts : list Artwork) :
  buckets (filter hasYear arts) = buckets arts.
Proof.
  unfold buckets. generalize (@Js.Map.empty (list Artwork)) as m.
  induction arts as [|a arts IH]; intros m; simpl; [reflexivity|].
  destruct (hasYear a) eqn:E; simpl; [apply IH|].
  rewrite (addToBucket_no_year m a E). apply IH.
Qed.

(** Stability of the sort, for a comparator that subtracts keys: the
    elements of one key keep their order. *)
Lemma filter_key_insert {A : Type} (key : A -> Z) (k : Z) (x : A) (l : list A) :
  ascending key l ->
  filter (fun a => key a =? k) (Js.insert (fun a b => key a - key b) x l) =
  if key x =? k then x :: filter (fun a => key a =? k) l
  else filter (fun a => key a =? k) l.
Proof.
  unfold ascending. induction 1 as [|y l Hl IH Hy]; simpl.
  - reflexivity.
  - destruct (key x - key y <=? 0) eqn:E; simpl.
    + reflexivity.
    + rewrite IH. apply Z.leb_gt in E.
      destruct (key x =? k) eqn:X; [|reflexivity].
      apply Z.eqb_eq in X.
      replace (key y =? k) with false; [reflexivity|].
      symmetry. apply Z.eqb_neq. lia.
Qed.

Lemma filter_key_sort {A : Type} (key : A -> Z) (k : Z) (l : list A) :
  filter (fun a => key a =? k) (Js.sort (fun a b => key a - key b) l) =
  filter (fun a => key a =? k) l.
Proof.
  induction l as [|x l IH]; simpl; [reflexivity|].
  rewrite filter_key_insert by apply sort_ascending.
  now rewrite IH.
Qed.

Lemma filter_ext_on {A : Type} (p q : A -> bool) (l : list A) :
  (forall x, In x l -> p x = q x) -> filter p l = filter q l.
Proof.
  induction l as [|x l IH]; simpl; intros H; [reflexivity|].
  rewrite (H x (or_introl eq_refl)), IH; [reflexivity|].
  intros y Hy. apply H. now right.
Qed.

Lemma filter_comm {A : Type} (p q : A -> bool) (l : list A) :
  filter p (filter q l) = filter q (filter p l).
Proof.
  induction l as [|x l IH]; simpl; [reflexivity|].
  destruct (p x) eqn:P, (q x) eqn:Q; simpl; rewrite ?P, ?Q, IH; reflexivity.
Qed.

End MoreBucketFacts.

Lemma String_of_number_inj (a b : Z) :
  Js.String_of_number a = Js.String_of_number b -> a = b.
Proof.
  unfold Js.String_of_number. intros H.
  assert (Hparse : forall z, NilZero.int_of_string (NilZero.string_of_int (Z.to_int z))
                             = Some (Z.to_int z)).
  { intros z. apply NilZero.isi; destruct z; simpl; try discriminate;
      intros [= Hnil]; now apply DecimalPos.Unsigned.to_uint_nonnil in Hnil. }
  apply DecimalZ.to_int_inj.
  pose proof (Hparse a) as Ha. rewrite H, Hparse in Ha. congruence.
Qed.

Lemma String_of_number_nonempty (z : Z) : Js.String_of_number z <> EmptyString.
Proof.
  unfold Js.String_of_number. intros H.
  assert (Hparse : NilZero.int_of_string (NilZero.string_of_int (Z.to_int z))
                   = Some (Z.to_int z)).
  { apply NilZero.isi; destruct z; simpl; try discriminate;
      intros [= Hnil]; now apply DecimalPos.Unsigned.to_uint_nonnil in Hnil. }
  rewrite H in Hparse. discriminate.
Qed.

Lemma append_s_inj (a b : string) : (a ++ "s")%string = (b ++ "s")%string -> a = b.
Proof.
  revert b. induction a as [|c a IH]; intros [|c' b]; simpl; intros H.
  - reflexivity.
  - injection H as _ H. now destruct b.
  - injection H as _ H. now destruct a.
  - injection H as -> H. now rewrite (IH b H).
Qed.

Lemma label_startYear (arts : list Artwork) (c : DecadeCollection) :
  In c (SinglePage.decades arts) ->
  label c = (Js.String_of_number (startYear c) ++ "s")%string.
Proof.
  intros Hc. apply single_decades_In in Hc. now destruct Hc as [k [-> _]].
Qed.

Lemma NoDup_map_inj_on {A B C : Type} (f : A -> B) (g : A -> C) (l : list A) :
  (forall a b, In a l -> In b l -> g a = g b -> f a = f b) ->
  NoDup (map f l) -> NoDup (map g l).
Proof.
  induction l as [|x l IH]; simpl; intros Hinj Hnd; [constructor|].
  inversion Hnd as [|? ? Hnotin Hnd']; subst. constructor.
  - intros Hin. apply in_map_iff in Hin. destruct Hin as [y [Hy Hin]].
    apply Hnotin. rewrite (Hinj x y); [now apply in_map | now left | now right | now symmetry].
  - apply IH; [|exact Hnd']. intros a b Ha Hb. apply Hinj; now right.
Qed.

Lemma concat_length_ge {A : Type} (n : nat) (ls : list (list A)) :
  Forall (fun l => (n <= length l)%nat) ls ->
  (n * length ls <= length (concat ls))%nat.
Proof.
  induction 1 as [|l ls Hl _ IH]; simpl; [lia|].
  rewrite length_app. lia.
Qed.

Lemma concat_filter_length {A B : Type} (f : A -> list B) (p : A -> bool) (l : list A) :
  (length (concat (map f (filter p l))) <= length (concat (map f l)))%nat.
Proof.
  induction l as [|x l IH]; simpl; [lia|].
  destruct (p x); simpl; rewrite !length_app; lia.
Qed.

(** X10.  Inside a bucket, in both variants, the records of one start
    year are in the order in which the record set has them: the sort is
    stable. *)
Theorem bucket_order_stable (arts : list Artwork) (c : DecadeCollection) (y : Z) :
  In c (SinglePage.decades arts) \/ In c (MultiPage.decades arts) ->
  decadeStart y = startYear c ->
  filter (hasStartYear y) (artworks c) = filter (hasStartYear y) arts.
Proof.
  intros Hc Hy.
  assert (Hs : In c (SinglePage.decades arts)).
  { destruct Hc as [Hc|Hc]; [exact Hc | now apply multi_decades_In in Hc]. }
  apply single_decades_In in Hs. destruct Hs as [k [-> _]]. simpl in *. subst k.
  set (L := filter (inDecade (decadeStart y)) arts).
  set (key := fun r : Artwork => Js.nullish (date_start r) 0).
  assert (Hkey : forall r, In r L -> hasStartYear y r = (key r =? y)).
  { intros r Hr. apply filter_In in Hr. destruct Hr as [_ Hr].
    unfold inDecade in Hr. unfold hasStartYear, key.
    now destruct (date_start r). }
  rewrite (filter_ext_on (hasStartYear y) (fun r => key r =? y) (Js.sort byDateStart L)).
  - change (Js.sort byDateStart L) with (Js.sort (fun a b => key a - key b) L).
    rewrite filter_key_sort.
    rewrite <- (filter_ext_on (hasStartYear y) (fun r => key r =? y) L Hkey).
    apply filter_implied. intros r Hr. unfold hasStartYear in Hr. unfold inDecade.
    destruct (date_start r) as [y'|]; [|discriminate].
    apply Z.eqb_eq in Hr. subst y'. apply Z.eqb_refl.
  - intros r Hr. apply Hkey. now apply sort_In in Hr.
Qed.

(** X10 at a bucket of three records, two of them of the year 1923. *)
Lemma bucket_order_stable_witness :
  filter (hasStartYear 1923)
    (artworks {| label := "1920s"; startYear := 1920;
                 artworks := [artwork 3 "C" (Some 1921); artwork 1 "A" (Some 1923);
                              artwork 2 "B" (Some 1923)] |})
  = filter (hasStartYear 1923)
      [artwork 1 "A" (Some 1923); artwork 3 "C" (Some 1921); artwork 2 "B" (Some 1923)].
Proof.
  apply (bucket_order_stable
           [artwork 1 "A" (Some 1923); artwork 3 "C" (Some 1921); artwork 2 "B" (Some 1923)]).
  - left. vm_compute. left. reflexivity.
  - reflexivity.
Defined.

Lemma buckets_counted_aux (arts : list Artwork) :
  Forall (fun c => artworks c <> []) (SinglePage.decades arts)
  /\ length (concat (map artworks (SinglePage.decades arts))) = length (filter hasYear arts).
Proof.
  split.
  - apply Forall_forall. intros c Hc Hnil.
    pose proof (bucket_size arts c Hc) as Hsize.
    apply single_decades_In in Hc. destruct Hc as [k [-> Hk]]. simpl in *.
    rewrite Hnil in Hsize. simpl in Hsize.
    destruct (filter (inDecade k) arts); [contradiction | discriminate].
  - apply Permutation_length, single_decades_Permutation.
Qed.

(** X11.  No bucket is empty; the single-page list is empty exactly when
    no record has a start year; there are at most as many buckets as
    records with a start year, and in the multi-page variant at most a
    twentieth of that. *)
Theorem buckets_counted (arts : list Artwork) :
  Forall (fun c => artworks c <> []) (SinglePage.decades arts)
  /\ (SinglePage.decades arts = [] <-> filter hasYear arts = [])
  /\ (length (SinglePage.decades arts) <= length (filter hasYear arts))%nat
  /\ (20 * length (MultiPage.decades arts) <= length (filter hasYear arts))%nat.
Proof.
  assert (Hne : Forall (fun c => artworks c <> []) (SinglePage.decades arts)).
  { apply Forall_forall. intros c Hc Hnil.
    pose proof (bucket_size arts c Hc) as Hsize.
    apply single_decades_In in Hc. destruct Hc as [k [-> Hk]]. simpl in *.
    rewrite Hnil in Hsize. simpl in Hsize.
    destruct (filter (inDecade k) arts); [contradiction | discriminate]. }
  pose proof (Permutation_length (single_decades_Permutation arts)) as Hlen.
  split; [exact Hne|]. split; [|split].
  - split.
    + intros Hnil. rewrite Hnil in Hlen. simpl in Hlen.
      now destruct (filter hasYear arts).
    + intros Hnil. rewrite Hnil in Hlen. simpl in Hlen.
      destruct (SinglePage.decades arts) as [|c ds]; [reflexivity|].
      inversion Hne as [|? ? Hc _]; subst. simpl in Hlen. rewrite length_app in Hlen.
      destruct (artworks c) eqn:E; [congruence | discriminate].
  - rewrite <- Hlen.
    etransitivity; [|apply (concat_length_ge 1)].
    + rewrite length_map. lia.
    + apply Forall_map. eapply Forall_impl; [|exact Hne].
      intros c Hc. destruct (artworks c) eqn:E; [congruence | simpl; lia].
  - rewrite <- Hlen, multi_decades_filter.
    etransitivity; [|apply (concat_filter_length artworks bigEnough)].
    etransitivity; [|apply (concat_length_ge 20)].
    + rewrite length_map. lia.
    + apply Forall_map, Forall_forall. intros c Hc. apply filter_In in Hc.
      destruct Hc as [_ Hc]. now apply Nat.leb_le in Hc.
Qed.

(** X12.  The label of a bucket is its start year in decimal followed by
    "s", and no two buckets of a bucket list carry the same label. *)
Theorem labels_distinct (arts : list Artwork) :
  Forall (fun c => label c = (Js.String_of_number (startYear c) ++ "s")%string)
         (SinglePage.decades arts)
  /\ NoDup (map label (SinglePage.decades arts))
  /\ NoDup (map label (MultiPage.decades arts)).
Proof.
  assert (Hl : Forall (fun c => label c = (Js.String_of_number (startYear c) ++ "s")%string)
                      (SinglePage.decades arts)).
  { apply Forall_forall. intros c Hc. now apply (label_startYear arts). }
  assert (Hs : NoDup (map label (SinglePage.decades arts))).
  { apply (NoDup_map_inj_on startYear label); [|apply single_decades_NoDup].
    intros a b Ha Hb Hab.
    rewrite (label_startYear arts a Ha), (label_startYear arts b Hb) in Hab.
    now apply String_of_number_inj, append_s_inj. }
  split; [exact Hl|]. split; [exact Hs|].
  rewrite multi_decades_filter.
  apply (NoDup_map_inj_on startYear label).
  - intros a b Ha Hb Hab. apply filter_In in Ha, Hb.
    rewrite (label_startYear arts a (proj1 Ha)), (label_startYear arts b (proj1 Hb)) in Hab.
    now apply String_of_number_inj, append_s_inj.
  - apply filter_NoDup_map, single_decades_NoDup.
Qed.

(** X13.  Records without start year have no influence on the bucket
    lists: leaving them out of the record set gives the same lists. *)
Theorem decades_ignore_yearless (arts : list Artwork) :
  SinglePage.decades (filter hasYear arts) = SinglePage.decades arts
  /\ MultiPage.decades (filter hasYear arts) = MultiPage.decades arts.
Proof.
  unfold SinglePage.decades, MultiPage.decades. now rewrite buckets_hasYear.
Qed.

(** * Further properties: the selection and the view *)

Section ViewFacts.

Lemma activeDecade_Some (ds : list DecadeCollection) (i : Z) :
  activeDecade ds i <> None <-> 0 <= i < Z.of_nat (length ds).
Proof.
  unfold activeDecade. destruct (i <? 0) eqn:E.
  - apply Z.ltb_lt in E. split; [congruence | lia].
  - apply Z.ltb_ge in E. rewrite nth_error_Some. lia.
Qed.

Lemma sorted_split {A : Type} (R : A -> A -> Prop) (l : list A) (n : nat) (a b : A) :
  StronglySorted R l -> In a (firstn n l) -> In b (skipn n l) -> R a b.
Proof.
  intros Hs. revert n. induction Hs as [|x l Hs IH Hx]; intros n Ha Hb.
  - destruct n; contradiction.
  - destruct n as [|n]; simpl in *; [contradiction|].
    destruct Ha as [<-|Ha].
    + rewrite Forall_forall in Hx. apply Hx.
      rewrite <- (firstn_skipn n l). apply in_or_app. now right.
    + now apply (IH n).
Qed.

Lemma firstn_NoDup {A : Type} (n : nat) (l : list A) : NoDup l -> NoDup (firstn n l).
Proof.
  intros Hnd. revert n. induction Hnd as [|x l Hx Hnd IH]; intros [|n]; simpl;
    try constructor.
  - intros Hin. apply Hx. rewrite <- (firstn_skipn n l). apply in_or_app. now left.
  - apply IH.
Qed.

Lemma multi_selectedIndex_kept (net : MultiPage.Network) (w : MultiPage.World) :
  MultiPage.State.selectedIndex (MultiPage.state (MultiPage.fetchArtworks net w))
  = MultiPage.State.selectedIndex (MultiPage.state w)
  /\ MultiPage.State.isLoading (MultiPage.state (MultiPage.fetchArtworks net w)) = false.
Proof.
  destruct (MultiPage.Promise_all (map (pagePromise net) MultiPage.pageNumbers))
    as [err|pages] eqn:P.
  - now rewrite (fetchArtworks_rejected net w err P).
  - now rewrite (fetchArtworks_fulfilled net w pages P).
Qed.

Lemma first_is_least (ds : list DecadeCollection) (c : DecadeCollection) :
  ascending startYear ds -> nth_error ds 0 = Some c ->
  forall c', In c' ds -> startYear c <= startYear c'.
Proof.
  intros Hs Hc c' Hc'. destruct ds as [|c0 ds]; [discriminate|].
  injection Hc as ->. inversion Hs as [|? ? _ Hall]; subst.
  destruct Hc' as [<-|Hc']; [lia|].
  rewrite Forall_forall in Hall. now apply Hall.
Qed.

Lemma multi_decades_small (arts : list Artwork) :
  (forall k, (length (filter (inDecade k) arts) < 20)%nat) -> MultiPage.decades arts = [].
Proof.
  intros Hsmall. destruct (MultiPage.decades arts) as [|c ds] eqn:E; [reflexivity|].
  assert (Hc : In c (MultiPage.decades arts)) by (rewrite E; now left).
  apply multi_decades_In in Hc. destruct Hc as [Hc Hbig].
  rewrite (bucket_size arts c Hc) in Hbig. specialize (Hsmall (startYear c)). lia.
Qed.

End ViewFacts.

(** X14.  Both variants.  On a bucket list that is not empty the effect
    leaves an index from 0 to [decades.length - 1] as it is, brings any
    index that is not negative into that range, where
    [decades[selectedIndex]] is defined, and does nothing when run
    again; the values the slider can give, from its [min] 0 to its [max]
    [decades.length - 1], select a bucket. *)
Theorem selection_in_bounds (ds : list DecadeCollection) :
  ds <> [] ->
  (forall w : MultiPage.World,
      let i := MultiPage.State.selectedIndex (MultiPage.state w) in
      let w' := MultiPage.clampSelectedIndex ds w in
      (0 <= i < Z.of_nat (length ds) -> MultiPage.State.selectedIndex (MultiPage.state w') = i)
      /\ (0 <= i -> activeDecade ds (MultiPage.State.selectedIndex (MultiPage.state w')) <> None)
      /\ MultiPage.clampSelectedIndex ds w' = w')
  /\ (forall w : SinglePage.World,
        let i := SinglePage.State.selectedIndex (SinglePage.state w) in
        let w' := SinglePage.clampSelectedIndex ds w in
        (0 <= i < Z.of_nat (length ds) -> SinglePage.State.selectedIndex (SinglePage.state w') = i)
        /\ (0 <= i -> activeDecade ds (SinglePage.State.selectedIndex (SinglePage.state w')) <> None)
        /\ SinglePage.clampSelectedIndex ds w' = w')
  /\ (forall (w : MultiPage.World) (v : Z), 0 <= v <= Z.of_nat (length ds) - 1 ->
        activeDecade ds
          (MultiPage.State.selectedIndex (MultiPage.state (MultiPageView.onSliderChange v w)))
        <> None)
  /\ (forall (w : SinglePage.World) (v : Z), 0 <= v <= Z.of_nat (length ds) - 1 ->
        activeDecade ds
          (SinglePage.State.selectedIndex (SinglePage.state (SinglePageView.onSliderChange v w)))
        <> None).
Proof.
  intros Hne.
  assert (Hlen : 0 < Z.of_nat (length ds)).
  { destruct ds; [contradiction | simpl length; lia]. }
  assert (Hz : (Z.of_nat (length ds) =? 0) = false) by (apply Z.eqb_neq; lia).
  split; [|split; [|split]].
  - intros [[arts i sel loading err] sent]. cbv zeta.
    unfold MultiPage.clampSelectedIndex. rewrite !Hz.
    unfold MultiPage.setSelectedIndex, MultiPage.onState.
    cbn [MultiPage.state MultiPage.sent MultiPage.State.selectedIndex
         MultiPage.State.artworks MultiPage.State.selectedArtwork
         MultiPage.State.isLoading MultiPage.State.error].
    split; [intros Hi; lia|]. split.
    + intros Hi. apply activeDecade_Some. lia.
    + rewrite <- Z.min_assoc, Z.min_id. reflexivity.
  - intros [[arts i loading err] sent]. cbv zeta.
    unfold SinglePage.clampSelectedIndex. rewrite !Hz.
    unfold SinglePage.setSelectedIndex, SinglePage.onState.
    cbn [SinglePage.state SinglePage.sent SinglePage.State.selectedIndex
         SinglePage.State.artworks SinglePage.State.isLoading SinglePage.State.error].
    split; [intros Hi; lia|]. split.
    + intros Hi. apply activeDecade_Some. lia.
    + rewrite <- Z.min_assoc, Z.min_id. reflexivity.
  - intros w v Hv. simpl. apply activeDecade_Some. lia.
  - intros w v Hv. simpl. apply activeDecade_Some. lia.
Qed.

(** X14 at a list of one bucket and a selected index of 3. *)
Lemma selection_in_bounds_witness :
  activeDecade (SinglePage.decades [artwork 1 "A" (Some 1923)])
    (MultiPage.State.selectedIndex
       (MultiPage.state
          (MultiPage.clampSelectedIndex (SinglePage.decades [artwork 1 "A" (Some 1923)])
             (MultiPage.setSelectedIndex (fun _ => 3) MultiPage.initialWorld))))
  <> None.
Proof.
  apply (proj1 (selection_in_bounds (SinglePage.decades [artwork 1 "A" (Some 1923)])
                  ltac:(vm_compute; discriminate))
               (MultiPage.setSelectedIndex (fun _ => 3) MultiPage.initialWorld)).
  vm_compute. discriminate.
Defined.

(** X15.  Multi-page variant: whatever the network answers, when the
    explorer is shown after the load from the initial state, the
    selected bucket [decades[selectedIndex]] is defined: it is the
    first bucket, of the least start year, and the effect leaves the
    selection there. *)
Theorem multi_render_after_load (net : MultiPage.Network) :
  let w := MultiPage.fetchArtworks net MultiPage.initialWorld in
  MultiPageView.showsExplorer w = true ->
  exists c,
    activeDecade (MultiPageView.currentDecades w)
                 (MultiPage.State.selectedIndex (MultiPage.state w)) = Some c
    /\ nth_error (MultiPageView.currentDecades w) 0 = Some c
    /\ (forall c', In c' (MultiPageView.currentDecades w) -> startYear c <= startYear c')
    /\ MultiPage.clampSelectedIndex (MultiPageView.currentDecades w) w = w.
Proof.
  intros w Hshow.
  assert (Hidx : MultiPage.State.selectedIndex (MultiPage.state w) = 0).
  { exact (proj1 (multi_selectedIndex_kept net MultiPage.initialWorld)). }
  clearbody w.
  unfold MultiPageView.showsExplorer in Hshow.
  apply andb_true_iff in Hshow. destruct Hshow as [_ Hlen]. apply Z.ltb_lt in Hlen.
  destruct (MultiPageView.currentDecades w) as [|c ds] eqn:E; [simpl in Hlen; lia|].
  exists c. rewrite Hidx. split; [reflexivity|]. split; [reflexivity|]. split.
  - apply (first_is_least (c :: ds) c); [|reflexivity].
    rewrite <- E. unfold MultiPageView.currentDecades, MultiPage.decades.
    apply (sort_ascending startYear).
  - unfold MultiPage.clampSelectedIndex.
    replace (Z.of_nat (length (c :: ds)) =? 0) with false
      by (symmetry; apply Z.eqb_neq; simpl length; lia).
    destruct w as [[arts i sel loading err] sent].
    cbn [MultiPage.state MultiPage.State.selectedIndex] in Hidx. subst i.
    unfold MultiPage.setSelectedIndex, MultiPage.onState.
    cbn [MultiPage.state MultiPage.sent MultiPage.State.selectedIndex
         MultiPage.State.artworks MultiPage.State.selectedArtwork
         MultiPage.State.isLoading MultiPage.State.error].
    rewrite Z.min_l by (simpl length; lia). reflexivity.
Qed.

(** X15 on the network that answers page 1 with twenty records of the
    1920s. *)
Lemma multi_render_after_load_witness :
  exists c,
    activeDecade
      (MultiPageView.currentDecades (MultiPage.fetchArtworks galleryNetwork MultiPage.initialWorld))
      (MultiPage.State.selectedIndex
         (MultiPage.state (MultiPage.fetchArtworks galleryNetwork MultiPage.initialWorld)))
    = Some c.
Proof.
  destruct (multi_render_after_load galleryNetwork) as [c [Hc _]].
  - vm_compute. reflexivity.
  - now exists c.
Defined.

(** X16.  Single-page variant: the same, after the single-page load. *)
Theorem single_render_after_load (net : SinglePage.Network) :
  let w := SinglePage.fetchArtworks net SinglePage.initialWorld in
  SinglePageView.showsExplorer w = true ->
  exists c,
    activeDecade (SinglePageView.currentDecades w)
                 (SinglePage.State.selectedIndex (SinglePage.state w)) = Some c
    /\ nth_error (SinglePageView.currentDecades w) 0 = Some c
    /\ (forall c', In c' (SinglePageView.currentDecades w) -> startYear c <= startYear c')
    /\ SinglePage.clampSelectedIndex (SinglePageView.currentDecades w) w = w.
Proof.
  intros w Hshow.
  assert (Hidx : SinglePage.State.selectedIndex (SinglePage.state w) = 0).
  { subst w. now rewrite SinglePage_fetchArtworks_cases. }
  clearbody w.
  unfold SinglePageView.showsExplorer in Hshow.
  apply andb_true_iff in Hshow. destruct Hshow as [_ Hlen]. apply Z.ltb_lt in Hlen.
  destruct (SinglePageView.currentDecades w) as [|c ds] eqn:E; [simpl in Hlen; lia|].
  exists c. rewrite Hidx. split; [reflexivity|]. split; [reflexivity|]. split.
  - apply (first_is_least (c :: ds) c); [|reflexivity].
    rewrite <- E. unfold SinglePageView.currentDecades. rewrite single_decades_sort.
    apply (sort_ascending startYear).
  - unfold SinglePage.clampSelectedIndex.
    replace (Z.of_nat (length (c :: ds)) =? 0) with false
      by (symmetry; apply Z.eqb_neq; simpl length; lia).
    destruct w as [[arts i loading err] sent].
    cbn [SinglePage.state SinglePage.State.selectedIndex] in Hidx. subst i.
    unfold SinglePage.setSelectedIndex, SinglePage.onState.
    cbn [SinglePage.state SinglePage.sent SinglePage.State.selectedIndex
         SinglePage.State.artworks SinglePage.State.isLoading SinglePage.State.error].
    rewrite Z.min_l by (simpl length; lia). reflexivity.
Qed.

(** X16 on the network of the scenario. *)
Lemma single_render_after_load_witness :
  exists c,
    activeDecade
      (SinglePageView.currentDecades
         (SinglePage.fetchArtworks scenarioNetworkSingle SinglePage.initialWorld))
      (SinglePage.State.selectedIndex
         (SinglePage.state
            (SinglePage.fetchArtworks scenarioNetworkSingle SinglePage.initialWorld)))
    = Some c.
Proof.
  destruct (single_render_after_load scenarioNetworkSingle) as [c [Hc _]].
  - reflexivity.
  - now exists c.
Defined.

(** X17.  The grid of the multi-page variant shows exactly 20 cards for
    every bucket of its bucket list, the first 20 records of the bucket,
    while the heading counts all its records, 20 or more; the grid of
    the single-page variant shows the first 12 records of a bucket, or
    all of them when it has fewer, and one card at least. *)
Theorem cards_count (arts : list Artwork) (c : DecadeCollection) :
  (In c (MultiPage.decades arts) ->
     length (MultiPageView.cards c) = 20%nat
     /\ (20 <= length (artworks c))%nat
     /\ map key (MultiPageView.cards c) = map id (firstn 20 (artworks c)))
  /\ (In c (SinglePage.decades arts) ->
        length (SinglePageView.cards c) = Nat.min 12 (length (artworks c))
        /\ (1 <= length (SinglePageView.cards c))%nat
        /\ map key (SinglePageView.cards c) = map id (firstn 12 (artworks c))).
Proof.
  split.
  - intros Hc. apply multi_decades_In in Hc. destruct Hc as [_ Hbig].
    unfold MultiPageView.cards. rewrite length_map, length_firstn, map_map.
    split; [lia|]. split; [exact Hbig | reflexivity].
  - intros Hc. unfold SinglePageView.cards. rewrite length_map, length_firstn, map_map.
    split; [reflexivity|]. split; [|reflexivity].
    pose proof (proj1 (buckets_counted_aux arts)) as Hne.
    rewrite Forall_forall in Hne. specialize (Hne c Hc).
    destruct (artworks c); [contradiction | simpl; lia].
Qed.

(** X17 at the bucket of twenty records of the 1920s. *)
Lemma cards_count_witness :
  length (MultiPageView.cards (toCollection (1920, fullDecadePage))) = 20%nat.
Proof.
  apply (proj1 (cards_count fullDecadePage (toCollection (1920, fullDecadePage)))).
  vm_compute. left. reflexivity.
Defined.

Lemma bucket_sorted (arts : list Artwork) (c : DecadeCollection) :
  In c (SinglePage.decades arts) \/ In c (MultiPage.decades arts) ->
  StronglySorted yearLe (artworks c).
Proof.
  intros Hc.
  assert (Hs : In c (SinglePage.decades arts)).
  { destruct Hc as [Hc|Hc]; [exact Hc | now apply multi_decades_In in Hc]. }
  apply single_decades_In in Hs. destruct Hs as [k [-> _]]. simpl.
  apply bucket_ascending, Forall_forall. intros r Hr. apply filter_In in Hr.
  now apply (inDecade_hasYear k).
Qed.

(** X18.  The records of a bucket that the grid leaves out, past the
    first 20 (multi-page) or 12 (single-page), have start years that
    are not below the start year of any record shown. *)
Theorem cards_earliest (arts : list Artwork) (c : DecadeCollection) (shown hidden : Artwork) :
  (In c (MultiPage.decades arts) ->
     In shown (firstn 20 (artworks c)) -> In hidden (skipn 20 (artworks c)) ->
     yearLe shown hidden)
  /\ (In c (SinglePage.decades arts) ->
        In shown (firstn 12 (artworks c)) -> In hidden (skipn 12 (artworks c)) ->
        yearLe shown hidden).
Proof.
  split; intros Hc; apply sorted_split; apply (bucket_sorted arts); tauto.
Qed.

(** X18 at a single-page bucket of thirteen records: the record of 1929
    is left out, a record of 1923 is shown. *)
Lemma cards_earliest_witness :
  yearLe (artwork 1 "A" (Some 1923)) (artwork 99 "Z" (Some 1929)).
Proof.
  apply (proj2 (cards_earliest
                  (artwork 99 "Z" (Some 1929) :: firstn 12 fullDecadePage)
                  (toCollection (1920, artwork 99 "Z" (Some 1929) :: firstn 12 fullDecadePage))
                  (artwork 1 "A" (Some 1923)) (artwork 99 "Z" (Some 1929)))).
  - vm_compute. left. reflexivity.
  - vm_compute. left. reflexivity.
  - vm_compute. left. reflexivity.
Defined.

(** X19.  Multi-page variant: after a load, the cards of a bucket have
    distinct React keys, the records of the record set having distinct
    identifiers. *)
Theorem card_keys_distinct (pages : list (list Artwork)) (c : DecadeCollection) :
  In c (MultiPage.decades (MultiPage.filtered pages)) ->
  NoDup (map key (MultiPageView.cards c))
  /\ NoDup (map id (artworks c)).
Proof.
  intros Hc. apply multi_decades_In in Hc. destruct Hc as [Hc _].
  assert (Hnd : NoDup (map id (artworks c))).
  { apply single_decades_In in Hc. destruct Hc as [k [-> _]]. simpl.
    eapply Permutation_NoDup.
    - apply Permutation_map. symmetry. apply sort_Permutation.
    - apply filter_NoDup_map. unfold MultiPage.filtered. apply filter_NoDup_map.
      rewrite <- deduped_keys. apply deduped_NoDup. }
  split; [|exact Hnd].
  unfold MultiPageView.cards. rewrite map_map.
  change (map (fun x => key (card x)) (firstn 20 (artworks c)))
    with (map id (firstn 20 (artworks c))).
  rewrite <- firstn_map. now apply firstn_NoDup.
Qed.

(** X19 on the page of twenty records, fetched twice. *)
Lemma card_keys_distinct_witness :
  NoDup (map key (MultiPageView.cards
                    (toCollection (1920, MultiPage.filtered [fullDecadePage; fullDecadePage])))).
Proof.
  refine (proj1 (card_keys_distinct [fullDecadePage; fullDecadePage]
                  (toCollection (1920, MultiPage.filtered [fullDecadePage; fullDecadePage]))
                  _)).
  vm_compute. left. reflexivity.
Defined.

(** X20.  Multi-page variant: when the load succeeds but no decade has
    20 records in the aggregate, the page shows neither the loading
    line, nor an error, nor the explorer. *)
Theorem multi_blank_page (net : MultiPage.Network) :
  (forall p, In p MultiPage.pageNumbers ->
             exists records, snd (pagePromise net p) = inr records) ->
  (forall k, (length (filter (inDecade k)
                        (MultiPage.filtered (map (pageData net) MultiPage.pageNumbers)))
              < 20)%nat) ->
  let w := MultiPage.fetchArtworks net MultiPage.initialWorld in
  MultiPageView.showsLoading w = false
  /\ MultiPageView.showsError w = false
  /\ MultiPageView.showsExplorer w = false.
Proof.
  intros Hall Hsmall w. subst w.
  unfold MultiPageView.showsLoading, MultiPageView.showsError,
    MultiPageView.showsExplorer, MultiPageView.currentDecades.
  rewrite (fetchArtworks_fulfilled net MultiPage.initialWorld _ (all_fulfilled net _ Hall)).
  cbn [MultiPage.state MultiPage.State.isLoading MultiPage.State.error
       MultiPage.State.artworks].
  rewrite (multi_decades_small _ Hsmall). repeat split.
Qed.

(** X20 on the network of the scenario, whose aggregate is one record. *)
Lemma multi_blank_page_witness :
  MultiPageView.showsLoading (MultiPage.fetchArtworks scenarioNetwork MultiPage.initialWorld) = false
  /\ MultiPageView.showsError (MultiPage.fetchArtworks scenarioNetwork MultiPage.initialWorld) = false
  /\ MultiPageView.showsExplorer (MultiPage.fetchArtworks scenarioNetwork MultiPage.initialWorld)
     = false.
Proof.
  apply (multi_blank_page scenarioNetwork).
  - intros p _. eexists. reflexivity.
  - intros k.
    apply Nat.le_lt_trans
      with (length (MultiPage.filtered (map (pageData scenarioNetwork) MultiPage.pageNumbers))).
    + apply filter_length_le.
    + vm_compute. lia.
Defined.

(** X21.  A card of a record that passed the retention filter has a
    heading and a date line that are not empty: the date line is the
    display date when there is one, and the start year otherwise. *)
Theorem card_text_present (r : Artwork) :
  retained r = true ->
  heading (card r) <> EmptyString
  /\ alt (card r) = title r
  /\ dateText (card r) <> EmptyString
  /\ (forall d, date_display r = Some d -> d <> EmptyString -> dateText (card r) = d)
  /\ (forall y, date_display r = None \/ date_display r = Some EmptyString ->
                date_start r = Some y -> dateText (card r) = Js.String_of_number y).
Proof.
  intros Hret. apply retained_spec in Hret. destruct Hret as [[y [Hy Hy0]] Ht].
  simpl. unfold dateLine. split; [exact Ht|]. split; [reflexivity|]. split; [|split].
  - destruct (date_display r) as [d|]; simpl.
    + destruct (Js.truthy_string d) eqn:T.
      * intros ->. discriminate.
      * rewrite Hy. apply String_of_number_nonempty.
    + rewrite Hy. apply String_of_number_nonempty.
  - intros d -> Hd. simpl.
    replace (Js.truthy_string d) with true; [reflexivity|].
    symmetry. unfold Js.truthy_string. apply negb_true_iff, String.eqb_neq, Hd.
  - intros y' [-> | ->] Hy'; simpl; now rewrite Hy'.
Qed.

(** X21 at the first record of the scenario. *)
Lemma card_text_present_witness :
  heading (card (artwork 1 "A" (Some 1923))) <> EmptyString
  /\ alt (card (artwork 1 "A" (Some 1923))) = "A"%string
  /\ dateText (card (artwork 1 "A" (Some 1923))) <> EmptyString
  /\ (forall d, date_display (artwork 1 "A" (Some 1923)) = Some d -> d <> EmptyString ->
                dateText (card (artwork 1 "A" (Some 1923))) = d)
  /\ (forall y, date_display (artwork 1 "A" (Some 1923)) = None
                \/ date_display (artwork 1 "A" (Some 1923)) = Some EmptyString ->
                date_start (artwork 1 "A" (Some 1923)) = Some y ->
                dateText (card (artwork 1 "A" (Some 1923))) = Js.String_of_number y).
Proof.
  apply (card_text_present (artwork 1 "A" (Some 1923))). reflexivity.
Defined.

Lemma sorted_nth {A : Type} (R : A -> A -> Prop) (l : list A) (i j : nat) (a b : A) :
  StronglySorted R l -> (i < j)%nat ->
  nth_error l i = Some a -> nth_error l j = Some b -> R a b.
Proof.
  intros Hs. revert i j. induction Hs as [|x l Hs IH Hx]; intros i j Hij Ha Hb.
  - now destruct i.
  - destruct j as [|j]; [lia|]. simpl in Hb. destruct i as [|i]; simpl in Ha.
    + injection Ha as <-. rewrite Forall_forall in Hx.
      apply Hx. now apply nth_error_In in Hb.
    + apply (IH i j); [lia | exact Ha | exact Hb].
Qed.

Lemma ascending_nth (ds : list DecadeCollection) (i j : nat) (a b : DecadeCollection) :
  ascending startYear ds -> (i <= j)%nat ->
  nth_error ds i = Some a -> nth_error ds j = Some b -> startYear a <= startYear b.
Proof.
  intros Hs Hij Ha Hb. destruct (Nat.eq_dec i j) as [->|Hne].
  - rewrite Ha in Hb. injection Hb as ->. lia.
  - apply (sorted_nth _ ds i j a b Hs); [lia | exact Ha | exact Hb].
Qed.

(** X22.  On a bucket list of either variant that is not empty, the
    three labels under the slider are defined: those of the first
    bucket, of the bucket at half the length and of the last bucket, in
    ascending order of start year. *)
Theorem timeline_labels_defined (arts : list Artwork) (ds : list DecadeCollection) :
  ds = SinglePage.decades arts \/ ds = MultiPage.decades arts ->
  ds <> [] ->
  exists first middle last,
    timelineLabels ds = (Some (label first), Some (label middle), Some (label last))
    /\ In first ds /\ In middle ds /\ In last ds
    /\ startYear first <= startYear middle <= startYear last
    /\ (forall c, In c ds -> startYear first <= startYear c <= startYear last).
Proof.
  intros Hds Hne.
  assert (Hs : ascending startYear ds).
  { destruct Hds as [-> | ->].
    - rewrite single_decades_sort. apply (sort_ascending startYear).
    - unfold MultiPage.decades. apply (sort_ascending startYear). }
  clear Hds.
  assert (Hlen : (0 < length ds)%nat) by (destruct ds; [contradiction | simpl; lia]).
  set (n := length ds) in *.
  assert (Hmid : 0 <= Z.of_nat n / 2 < Z.of_nat n).
  { split; [apply Z.div_pos; lia | apply Z.div_lt_upper_bound; lia]. }
  unfold timelineLabels, activeDecade. fold n.
  replace (0 <? 0) with false by reflexivity.
  replace (Z.of_nat n / 2 <? 0) with false by (symmetry; apply Z.ltb_ge; lia).
  replace (Z.of_nat n - 1 <? 0) with false by (symmetry; apply Z.ltb_ge; lia).
  destruct (nth_error ds (Z.to_nat 0)) as [first|] eqn:F;
    [|apply nth_error_None in F; simpl in F; fold n in F; lia].
  destruct (nth_error ds (Z.to_nat (Z.of_nat n / 2))) as [middle|] eqn:M;
    [|apply nth_error_None in M; fold n in M; lia].
  destruct (nth_error ds (Z.to_nat (Z.of_nat n - 1))) as [last|] eqn:L;
    [|apply nth_error_None in L; fold n in L; lia].
  exists first, middle, last. split; [reflexivity|].
  split; [now apply nth_error_In in F|].
  split; [now apply nth_error_In in M|].
  split; [now apply nth_error_In in L|].
  split.
  - split.
    + apply (ascending_nth ds (Z.to_nat 0) (Z.to_nat (Z.of_nat n / 2)) first middle Hs);
        [lia | exact F | exact M].
    + apply (ascending_nth ds (Z.to_nat (Z.of_nat n / 2)) (Z.to_nat (Z.of_nat n - 1))
               middle last Hs); [lia | exact M | exact L].
  - intros c Hc. destruct (In_nth_error _ _ Hc) as [i Hi].
    assert (Hi' : (i < n)%nat).
    { unfold n. apply nth_error_Some. now rewrite Hi. }
    split.
    + apply (ascending_nth ds (Z.to_nat 0) i first c Hs); [lia | exact F | exact Hi].
    + apply (ascending_nth ds i (Z.to_nat (Z.of_nat n - 1)) c last Hs);
        [lia | exact Hi | exact L].
Qed.

(** X22 on three records of three decades. *)
Lemma timeline_labels_defined_witness :
  exists first middle last,
    timelineLabels
      (SinglePage.decades
         [artwork 1 "A" (Some 1923); artwork 2 "B" (Some 1950); artwork 3 "C" (Some (-5))])
    = (Some (label first), Some (label middle), Some (label last))
    /\ startYear first <= startYear middle <= startYear last.
Proof.
  destruct (timeline_labels_defined
              [artwork 1 "A" (Some 1923); artwork 2 "B" (Some 1950); artwork 3 "C" (Some (-5))]
              (SinglePage.decades
                 [artwork 1 "A" (Some 1923); artwork 2 "B" (Some 1950);
                  artwork 3 "C" (Some (-5))]))
    as [first [middle [last [Hl [_ [_ [_ [Ho _]]]]]]]].
  - left. reflexivity.
  - vm_compute. discriminate.
  - now exists first, middle, last.
Defined.

(** X23.  Single-page variant: when [fetch] or [response.json()]
    rejects with an [Error] whose message is empty, the load ends with
    the empty string as error, which is falsy: the page shows neither
    the loading line, nor an error, nor the explorer. *)
Theorem single_empty_error_blank (net : SinglePage.Network) :
  net SinglePage.API_URL = inl (Error EmptyString)
  \/ (exists response, net SinglePage.API_URL = inr response /\ ok response = true
                       /\ json response = inl (Error EmptyString)) ->
  let w := SinglePage.fetchArtworks net SinglePage.initialWorld in
  SinglePage.State.error (SinglePage.state w) = Some EmptyString
  /\ SinglePageView.showsLoading w = false
  /\ SinglePageView.showsError w = false
  /\ SinglePageView.showsExplorer w = false.
Proof.
  intros Hnet w. subst w.
  unfold SinglePageView.showsLoading, SinglePageView.showsError,
    SinglePageView.showsExplorer, SinglePageView.currentDecades.
  rewrite SinglePage_fetchArtworks_cases. cbv zeta.
  destruct Hnet as [-> | [response [-> [Hok Hjson]]]].
  - repeat split.
  - unfold readPage. rewrite Hok, Hjson. repeat split.
Qed.

(** X23 on a network whose [fetch] rejects with an [Error] of empty
    message. *)
Lemma single_empty_error_blank_witness :
  SinglePageView.showsError
    (SinglePage.fetchArtworks (fun _ => inl (Error EmptyString)) SinglePage.initialWorld)
  = false.
Proof.
  refine (proj1 (proj2 (proj2 (single_empty_error_blank
                                 (fun _ => inl (Error EmptyString)) _)))).
  left. reflexivity.
Defined.
